(** * pdf-marker: a shallow embedding of [main.py]

    The program queues text and image annotations on an [EditeurPDF] object
    and, on [generer], paints them on one ReportLab canvas per annotated page
    and merges that canvas over the page of the source document.

    The embedding keeps the program's own names.  Python numbers are the
    two-constructor type [pynum] (unbounded [int], binary64 [float]) with
    Python's promotion rules; the objects the program mutates live on a heap
    addressed by references; files, the console and the clock are fields of
    the state [monde] that every operation threads.  The three libraries the
    program calls (PyPDF2, ReportLab, Pillow) are modelled at their interface:
    a canvas is the sequence of calls made on it, a page is its original
    content plus the overlays merged onto it. *)

From Stdlib Require Import ZArith List Ascii String Floats.
From stdpp Require Import gmap strings list.
Import ListNotations.

Local Open Scope Z_scope.
#[local] Set Warnings "-inexact-float".

(** ** Exceptions and results *)

Inductive exception :=
| OverflowError
| ZeroDivisionError
| AttributeError
| FileNotFoundError (chemin : string)
| PdfReadError (chemin : string)
| UnidentifiedImageError (chemin : string)
| KeyError (police : string)
| ValueError (couleur : string)
| OSError (chemin : string).

Inductive resultat (A : Type) :=
| Ok (a : A)
| Err (e : exception).

Arguments Ok {A} a.
Arguments Err {A} e.

#[global] Instance resultat_ret : MRet resultat := fun _ a => Ok a.

#[global] Instance resultat_bind : MBind resultat := fun _ _ k r =>
  match r with
  | Ok a => k a
  | Err e => Err e
  end.

(** ** Python numbers *)

Inductive pynum :=
| PInt (z : Z)
| PFloat (f : float).

(** [float(z)] of an [int]: round to nearest even, [OverflowError] when the
    rounded value does not fit a binary64. *)
Definition Z2SF (z : Z) : spec_float :=
  binary_normalize prec emax z 0 false.

Definition float_fini (f : float) : resultat float :=
  if is_infinity f then Err OverflowError else Ok f.

Definition float_of_Z (z : Z) : resultat float :=
  float_fini (SF2Prim (Z2SF z)).

Definition py_float (n : pynum) : resultat float :=
  match n with
  | PInt z => float_of_Z z
  | PFloat f => Ok f
  end.

(** Binary operators: [int op int] stays an [int]; as soon as one operand is a
    [float] the other is converted and the IEEE operation is used (which never
    raises for [+], [-], [*]). *)
Definition arith (opz : Z -> Z -> Z) (opf : float -> float -> float)
    (a b : pynum) : resultat pynum :=
  match a, b with
  | PInt x, PInt y => Ok (PInt (opz x y))
  | _, _ =>
      fa ← py_float a;
      fb ← py_float b;
      Ok (PFloat (opf fa fb))
  end.

Definition py_add := arith Z.add PrimFloat.add.
Definition py_sub := arith Z.sub PrimFloat.sub.
Definition py_mul := arith Z.mul PrimFloat.mul.

Definition py_neg (a : pynum) : pynum :=
  match a with
  | PInt x => PInt (- x)
  | PFloat f => PFloat (- f)%float
  end.

(** [a / b] on two [int]s (true division): the correctly rounded quotient. *)
Definition Z2SF_exact (z : Z) : spec_float :=
  match z with
  | Z0 => S754_zero false
  | Zpos p => S754_finite false p 0
  | Zneg p => S754_finite true p 0
  end.

Definition int_truediv (a b : Z) : resultat float :=
  if b =? 0 then Err ZeroDivisionError
  else float_fini (SF2Prim (SFdiv prec emax (Z2SF_exact a) (Z2SF_exact b))).

(** [n != 0] *)
Definition py_ne0 (n : pynum) : bool :=
  match n with
  | PInt z => negb (z =? 0)
  | PFloat f => negb (f =? 0)%float
  end.


(** ** Annotation descriptors

    [ajouter_texte] and [ajouter_image] append a dict whose ['type'] key is
    ['texte'] or ['image']; the two shapes are the two constructors of
    [element], the other keys are the fields. *)

Record elem_texte := {
  t_texte : string;
  t_x : pynum;
  t_y : pynum;
  t_page : Z;
  t_taille_police : pynum;
  t_police : string;
  t_couleur : string;
  t_rotation : pynum;
  t_opacite : pynum
}.

Record elem_image := {
  i_chemin_image : string;
  i_x : pynum;
  i_y : pynum;
  i_page : Z;
  i_largeur : option pynum;
  i_hauteur : option pynum;
  i_conserver_ratio : bool;
  i_rotation : pynum;
  i_opacite : pynum
}.

Inductive element :=
| Texte (t : elem_texte)
| Image (i : elem_image).

(** [elem['page']] *)
Definition page_de (elem : element) : Z :=
  match elem with
  | Texte t => t_page t
  | Image i => i_page i
  end.

(** Default values of the keyword parameters. *)
Definition defaut_page : Z := 0.
Definition defaut_taille_police : pynum := PInt 12.
Definition defaut_police : string := "Helvetica".
Definition defaut_couleur : string := "#000000".
Definition defaut_rotation : pynum := PInt 0.
Definition defaut_opacite : pynum := PFloat 1.

(** ** The drawing surface (ReportLab) and pages (PyPDF2) *)

Record Color := { red : float; green : float; blue : float; alpha : float }.

(** One constructor per canvas method the program calls. *)
Inductive canvas_op :=
| SaveState
| RestoreState
| SetFont (psfontname : string) (size : pynum)
| SetFillColor (c : Color)
| SetFillAlpha (a : pynum)
| SetStrokeAlpha (a : pynum)
| Translate (dx dy : pynum)
| Rotate (theta : pynum)
| DrawString (x y : pynum) (text : string)
| DrawImage (image : string) (x y width height : pynum)
    (preserveAspectRatio : bool) (mask : string).

(** A canvas is its page size and the calls made on it so far. *)
Record Canvas := { pagesize : float * float; code : list canvas_op }.

Definition nouveau_canvas (largeur hauteur : float) : Canvas :=
  {| pagesize := (largeur, hauteur); code := [] |}.

Definition emettre (can : Canvas) (op : canvas_op) : Canvas :=
  {| pagesize := pagesize can; code := code can ++ [op] |}.

(** A page: its media box, its original content (opaque here) and the
    overlays [merge_page] has put on it, oldest first. *)
Record pdf_page := {
  mediabox_width : float;
  mediabox_height : float;
  contenu : string;
  fusions : list Canvas
}.

Definition merge_page (page_existante : pdf_page) (calque : Canvas) : pdf_page :=
  {| mediabox_width := mediabox_width page_existante;
     mediabox_height := mediabox_height page_existante;
     contenu := contenu page_existante;
     fusions := fusions page_existante ++ [calque] |}.

(** ** The state of the world *)

Inductive fichier :=
| FichierPDF (pages : list pdf_page)
| FichierImage (size : Z * Z)
| FichierAutre.

Record EditeurPDF := {
  fichier_pdf_entree : string;
  elements : list element
}.

(** What [print] writes. *)
Inductive message :=
| MsgTexteAjoute (texte : string) (page : Z) (x y : pynum)
| MsgImageAjoutee (chemin_image : string) (page : Z) (x y : pynum)
| MsgPdfGenere (fichier_pdf_sortie : string)
| MsgTotalElements (n : nat)
| MsgReinitialise.

Abbreviation ref := nat (only parsing).

(** [tas]: the [EditeurPDF] objects, by reference.  [fichiers]: the file
    system.  [proteges]: the paths [open(_, "wb")] refuses.  [console]: what
    was printed, oldest first.  [date_du_jour]: what
    [datetime.now().strftime('%d/%m/%Y')] returns. *)
Record monde := {
  tas : gmap nat EditeurPDF;
  fichiers : gmap string fichier;
  proteges : gset string;
  console : list message;
  date_du_jour : string
}.

Definition avec_tas (t : gmap nat EditeurPDF) (w : monde) : monde :=
  {| tas := t; fichiers := fichiers w; proteges := proteges w;
     console := console w; date_du_jour := date_du_jour w |}.

Definition avec_fichiers (fs : gmap string fichier) (w : monde) : monde :=
  {| tas := tas w; fichiers := fs; proteges := proteges w;
     console := console w; date_du_jour := date_du_jour w |}.

Definition avec_console (c : list message) (w : monde) : monde :=
  {| tas := tas w; fichiers := fichiers w; proteges := proteges w;
     console := c; date_du_jour := date_du_jour w |}.

(** Operations thread the world and may raise; what was done before the
    exception stays done. *)
Definition M (A : Type) : Type := monde -> resultat A * monde.

#[global] Instance M_ret : MRet M := fun _ a w => (Ok a, w).

#[global] Instance M_bind : MBind M := fun _ _ k m w =>
  match m w with
  | (Ok a, w') => k a w'
  | (Err e, w') => (Err e, w')
  end.

Definition pur {A} (r : resultat A) : M A := fun w => (r, w).

Definition print (msg : message) : M unit := fun w =>
  (Ok tt, avec_console (console w ++ [msg]) w).

(** Attribute access on a reference that is no [EditeurPDF] fails. *)
Definition lire_objet (self : ref) : M EditeurPDF := fun w =>
  match tas w !! self with
  | Some ed => (Ok ed, w)
  | None => (Err AttributeError, w)
  end.

Definition ecrire_objet (self : ref) (ed : EditeurPDF) : M unit := fun w =>
  (Ok tt, avec_tas (<[self := ed]> (tas w)) w).

(** [self.elements.append(elem)] *)
Definition elements_append (self : ref) (elem : element) : M unit :=
  ed ← lire_objet self;
  ecrire_objet self
    {| fichier_pdf_entree := fichier_pdf_entree ed;
       elements := elements ed ++ [elem] |}.

(** ** The descriptor store: class [EditeurPDF] *)

Definition EditeurPDF_init (fichier_pdf_entree : string) : M ref := fun w =>
  let self := fresh (dom (tas w)) in
  (Ok self,
   avec_tas (<[self := {| fichier_pdf_entree := fichier_pdf_entree;
                          elements := [] |}]> (tas w)) w).

Definition ajouter_texte (self : ref) (texte : string) (x y : pynum)
    (page : Z) (taille_police : pynum) (police couleur : string)
    (rotation opacite : pynum) : M unit :=
  elements_append self
    (Texte {| t_texte := texte; t_x := x; t_y := y; t_page := page;
              t_taille_police := taille_police; t_police := police;
              t_couleur := couleur; t_rotation := rotation;
              t_opacite := opacite |});;
  print (MsgTexteAjoute texte page x y).

Definition ajouter_image (self : ref) (chemin_image : string) (x y : pynum)
    (page : Z) (largeur hauteur : option pynum) (conserver_ratio : bool)
    (rotation opacite : pynum) : M unit :=
  elements_append self
    (Image {| i_chemin_image := chemin_image; i_x := x; i_y := y;
              i_page := page; i_largeur := largeur; i_hauteur := hauteur;
              i_conserver_ratio := conserver_ratio; i_rotation := rotation;
              i_opacite := opacite |});;
  print (MsgImageAjoutee chemin_image page x y).

Definition reinitialiser (self : ref) : M unit :=
  ed ← lire_objet self;
  ecrire_objet self
    {| fichier_pdf_entree := fichier_pdf_entree ed; elements := [] |};;
  print MsgReinitialise.

(** ** The signature block: [signer_pdf_region] *)

Definition nl : string := String "010"%char EmptyString.

Definition texte_mentions : string :=
  "Lorem ipsum dolor sit amet, consectetur adipiscing elit. " +:+ nl +:+
  "Pellentesque fermentum aliquam urna eu bibendum. " +:+ nl +:+
  "Morbi sit amet blandit purus.".

Definition texte_signataire (date : string) : string :=
  "M. John Doe" +:+ nl +:+
  "Certified Adobe" +:+ nl +:+
  "Signé le " +:+ date.

(** [datetime.now().strftime('%d/%m/%Y')] *)
Definition maintenant_jjmmaaaa : M string := fun w => (Ok (date_du_jour w), w).

Definition signer_pdf_region (editeur_pdf : ref) (x y : pynum) (page : Z)
    (largeur hauteur : option pynum) (conserver_ratio : bool)
    (chemin_logo_adobe : string) : M ref :=
  x_adobe ← pur (py_add x (PInt 135));
  y_adobe ← pur (py_sub y (PInt 35));
  ajouter_image editeur_pdf chemin_logo_adobe x_adobe y_adobe page
    (Some (PInt 70)) (Some (PInt 70)) conserver_ratio
    defaut_rotation defaut_opacite;;
  ajouter_texte editeur_pdf texte_mentions x y page (PInt 6)
    "Helvetica-Bold" "#000000" defaut_rotation defaut_opacite;;
  x_signature ← pur (py_add x_adobe (PInt 35));
  y_signature ← pur (py_add y (PInt 5));
  date ← maintenant_jjmmaaaa;
  ajouter_texte editeur_pdf (texte_signataire date) x_signature y_signature
    page (PInt 8) "Helvetica-Bold" "#000000" defaut_rotation defaut_opacite;;
  mret editeur_pdf.

(** ** The compositor: [EditeurPDF.generer] *)

(** [s.split('\n')] *)
Fixpoint split_lignes (s : string) : list string :=
  match s with
  | EmptyString => [EmptyString]
  | String c r =>
      if Ascii.eqb c "010"%char then EmptyString :: split_lignes r
      else match split_lignes r with
           | [] => [String c EmptyString]
           | l :: ls => String c l :: ls
           end
  end.

(** The grouping loop: [elements_par_page]. *)
Fixpoint organiser (els : list element)
    (elements_par_page : gmap Z (list element)) : gmap Z (list element) :=
  match els with
  | [] => elements_par_page
  | elem :: reste =>
      let page := page_de elem in
      let epp :=
        match elements_par_page !! page with
        | None => <[page := []]> elements_par_page
        | Some _ => elements_par_page
        end in
      organiser reste (<[page := default [] (epp !! page) ++ [elem]]> epp)
  end.

(** [PdfReader(chemin).pages] *)
Definition PdfReader (fs : gmap string fichier) (chemin : string)
    : resultat (list pdf_page) :=
  match fs !! chemin with
  | Some (FichierPDF pages) => Ok pages
  | Some _ => Err (PdfReadError chemin)
  | None => Err (FileNotFoundError chemin)
  end.

(** [Image.open(chemin).size] *)
Definition Image_open_size (fs : gmap string fichier) (chemin : string)
    : resultat (Z * Z) :=
  match fs !! chemin with
  | Some (FichierImage size) => Ok size
  | Some _ => Err (UnidentifiedImageError chemin)
  | None => Err (FileNotFoundError chemin)
  end.

(** [with open(chemin, "wb") as f: sortie.write(f)] *)
Definition ecrire_pdf (chemin : string) (sortie : list pdf_page) : M unit :=
  fun w =>
    if decide (chemin ∈ proteges w) then (Err (OSError chemin), w)
    else (Ok tt, avec_fichiers (<[chemin := FichierPDF sortie]> (fichiers w)) w).

(** The image sizing rule (the [if]/[elif] chain on [largeur]/[hauteur]). *)
Definition dimensions_finales (elem : elem_image) (img_largeur img_hauteur : Z)
    : resultat (pynum * pynum) :=
  match i_largeur elem, i_hauteur elem with
  | None, None => Ok (PInt img_largeur, PInt img_hauteur)
  | Some largeur, None =>
      let largeur_finale := largeur in
      if i_conserver_ratio elem then
        ratio ← int_truediv img_hauteur img_largeur;
        hauteur_finale ← py_mul largeur_finale (PFloat ratio);
        Ok (largeur_finale, hauteur_finale)
      else Ok (largeur_finale, PInt img_hauteur)
  | None, Some hauteur =>
      let hauteur_finale := hauteur in
      if i_conserver_ratio elem then
        ratio ← int_truediv img_largeur img_hauteur;
        largeur_finale ← py_mul hauteur_finale (PFloat ratio);
        Ok (largeur_finale, hauteur_finale)
      else Ok (PInt img_largeur, hauteur_finale)
  | Some largeur, Some hauteur => Ok (largeur, hauteur)
  end.

Section Compositeur.

(** ReportLab's colour parser and font registry. *)
Variable HexColor : string -> option Color.
Variable police_connue : string -> bool.

Definition setFont (can : Canvas) (psfontname : string) (size : pynum)
    : resultat Canvas :=
  if police_connue psfontname then Ok (emettre can (SetFont psfontname size))
  else Err (KeyError psfontname).

Definition setFillColor_hex (can : Canvas) (couleur : string)
    : resultat Canvas :=
  match HexColor couleur with
  | Some c => Ok (emettre can (SetFillColor c))
  | None => Err (ValueError couleur)
  end.

(** [for i, ligne in enumerate(lignes)] of the branch without rotation. *)
Fixpoint dessiner_lignes (elem : elem_texte) (i : Z) (lignes : list string)
    (can : Canvas) : resultat Canvas :=
  match lignes with
  | [] => Ok can
  | ligne :: reste =>
      p ← py_mul (PInt i) (t_taille_police elem);
      q ← py_mul p (PFloat 1.2);
      y_offset ← py_sub (t_y elem) q;
      dessiner_lignes elem (i + 1) reste
        (emettre can (DrawString (t_x elem) y_offset ligne))
  end.

(** The same loop in the rotated frame. *)
Fixpoint dessiner_lignes_rotation (elem : elem_texte) (i : Z)
    (lignes : list string) (can : Canvas) : resultat Canvas :=
  match lignes with
  | [] => Ok can
  | ligne :: reste =>
      p ← py_mul (py_neg (PInt i)) (t_taille_police elem);
      y_offset ← py_mul p (PFloat 1.2);
      dessiner_lignes_rotation elem (i + 1) reste
        (emettre can (DrawString (PInt 0) y_offset ligne))
  end.

Definition dessiner_texte (elem : elem_texte) (can : Canvas)
    : resultat Canvas :=
  can ← setFont can (t_police elem) (t_taille_police elem);
  can ← setFillColor_hex can (t_couleur elem);
  let can := emettre can (SetFillAlpha (t_opacite elem)) in
  let lignes := split_lignes (t_texte elem) in
  if py_ne0 (t_rotation elem) then
    let can := emettre can (Translate (t_x elem) (t_y elem)) in
    let can := emettre can (Rotate (t_rotation elem)) in
    dessiner_lignes_rotation elem 0 lignes can
  else dessiner_lignes elem 0 lignes can.

Definition dessiner_image (fs : gmap string fichier) (elem : elem_image)
    (can : Canvas) : resultat Canvas :=
  '(img_largeur, img_hauteur) ← Image_open_size fs (i_chemin_image elem);
  '(largeur_finale, hauteur_finale) ←
    dimensions_finales elem img_largeur img_hauteur;
  let can := emettre can (SetFillAlpha (i_opacite elem)) in
  let can := emettre can (SetStrokeAlpha (i_opacite elem)) in
  if py_ne0 (i_rotation elem) then
    let can := emettre can (Translate (i_x elem) (i_y elem)) in
    let can := emettre can (Rotate (i_rotation elem)) in
    Ok (emettre can
          (DrawImage (i_chemin_image elem) (PInt 0) (PInt 0)
             largeur_finale hauteur_finale (i_conserver_ratio elem) "auto"))
  else
    Ok (emettre can
          (DrawImage (i_chemin_image elem) (i_x elem) (i_y elem)
             largeur_finale hauteur_finale (i_conserver_ratio elem) "auto")).

(** The body of [for elem in elements_par_page[num_page]]. *)
Definition dessiner_element (fs : gmap string fichier) (elem : element)
    (can : Canvas) : resultat Canvas :=
  let can := emettre can SaveState in
  can ←
    match elem with
    | Texte t => dessiner_texte t can
    | Image i => dessiner_image fs i can
    end;
  Ok (emettre can RestoreState).

Fixpoint dessiner_elements (fs : gmap string fichier) (elems : list element)
    (can : Canvas) : resultat Canvas :=
  match elems with
  | [] => Ok can
  | elem :: reste =>
      can ← dessiner_element fs elem can;
      dessiner_elements fs reste can
  end.

(** The body of [for num_page in range(len(lecteur_pdf.pages))]. *)
Definition traiter_page (fs : gmap string fichier)
    (elements_par_page : gmap Z (list element)) (num_page : Z)
    (page_existante : pdf_page) : resultat pdf_page :=
  match elements_par_page !! num_page with
  | Some elems =>
      let largeur := mediabox_width page_existante in
      let hauteur := mediabox_height page_existante in
      let can := nouveau_canvas largeur hauteur in
      can ← dessiner_elements fs elems can;
      Ok (merge_page page_existante can)
  | None => Ok page_existante
  end.

Fixpoint traiter_pages (fs : gmap string fichier)
    (elements_par_page : gmap Z (list element)) (num_page : Z)
    (pages : list pdf_page) (sortie : list pdf_page)
    : resultat (list pdf_page) :=
  match pages with
  | [] => Ok sortie
  | page_existante :: reste =>
      page ← traiter_page fs elements_par_page num_page page_existante;
      traiter_pages fs elements_par_page (num_page + 1) reste (sortie ++ [page])
  end.

Definition generer (self : ref) (fichier_pdf_sortie : string) : M unit :=
  ed ← lire_objet self;
  lecteur_pdf ← (fun w => (PdfReader (fichiers w) (fichier_pdf_entree ed), w));
  let elements_par_page := organiser (elements ed) ∅ in
  sortie ← (fun w =>
    (traiter_pages (fichiers w) elements_par_page 0 lecteur_pdf [], w));
  ecrire_pdf fichier_pdf_sortie sortie;;
  print (MsgPdfGenere fichier_pdf_sortie);;
  ed ← lire_objet self;
  print (MsgTotalElements (length (elements ed))).

End Compositeur.

(** ** Auxiliary definitions used in the statements *)

(** [n + d] and [n - d] for an integer literal [d] that converts to a finite
    float: the value Python computes, without the error case. *)
Definition plus_litteral (n : pynum) (d : Z) : pynum :=
  match n with
  | PInt z => PInt (z + d)
  | PFloat f => PFloat (f + SF2Prim (Z2SF d))%float
  end.

Definition moins_litteral (n : pynum) (d : Z) : pynum :=
  match n with
  | PInt z => PInt (z - d)
  | PFloat f => PFloat (f - SF2Prim (Z2SF d))%float
  end.

(** The three descriptors of a signature block anchored at [(x, y)]. *)
Definition bloc_signature (x y : pynum) (page : Z) (conserver_ratio : bool)
    (chemin_logo_adobe date : string) : list element :=
  [ Image {| i_chemin_image := chemin_logo_adobe;
             i_x := plus_litteral x 135; i_y := moins_litteral y 35;
             i_page := page;
             i_largeur := Some (PInt 70); i_hauteur := Some (PInt 70);
             i_conserver_ratio := conserver_ratio;
             i_rotation := PInt 0; i_opacite := PFloat 1 |};
    Texte {| t_texte := texte_mentions; t_x := x; t_y := y; t_page := page;
             t_taille_police := PInt 6; t_police := "Helvetica-Bold";
             t_couleur := "#000000";
             t_rotation := PInt 0; t_opacite := PFloat 1 |};
    Texte {| t_texte := texte_signataire date;
             t_x := plus_litteral (plus_litteral x 135) 35;
             t_y := plus_litteral y 5; t_page := page;
             t_taille_police := PInt 8; t_police := "Helvetica-Bold";
             t_couleur := "#000000";
             t_rotation := PInt 0; t_opacite := PFloat 1 |} ].

(** What the three registrations print. *)
Definition journal_signature (x y : pynum) (page : Z)
    (chemin_logo_adobe date : string) : list message :=
  [ MsgImageAjoutee chemin_logo_adobe page
      (plus_litteral x 135) (moins_litteral y 35);
    MsgTexteAjoute texte_mentions page x y;
    MsgTexteAjoute (texte_signataire date) page
      (plus_litteral (plus_litteral x 135) 35) (plus_litteral y 5) ].

Definition avec_elements (els : list element) (ed : EditeurPDF) : EditeurPDF :=
  {| fichier_pdf_entree := fichier_pdf_entree ed; elements := els |}.

(** ** A concrete world, used to run the model

    One editor (reference 0) on [document.pdf], a two-page A4 document, and a
    200 x 100 logo; nothing queued yet. *)

Definition noir : Color := {| red := 0; green := 0; blue := 0; alpha := 1 |}.

Definition HexColor_exemple (couleur : string) : option Color :=
  if String.eqb couleur "#000000" then Some noir else None.

Definition polices_exemple (police : string) : bool :=
  String.eqb police "Helvetica" || String.eqb police "Helvetica-Bold".

Definition page_a4 (contenu : string) : pdf_page :=
  {| mediabox_width := 595.2756; mediabox_height := 841.8898;
     contenu := contenu; fusions := [] |}.

Definition editeur_exemple : EditeurPDF :=
  {| fichier_pdf_entree := "document.pdf"; elements := [] |}.

Definition monde_exemple : monde :=
  {| tas := {[ 0%nat := editeur_exemple ]};
     fichiers :=
       {[ "document.pdf" := FichierPDF [page_a4 "page 1"; page_a4 "page 2"];
          "resources/adobe_logo.png" := FichierImage (200, 100) ]};
     proteges := ∅;
     console := [];
     date_du_jour := "03/11/2026" |}.

(** ** Attribute lookup on an [EditeurPDF] instance

    The instance dictionary holds the two fields [__init__] sets; the class
    holds the five [def]s.  Any other name raises [AttributeError]. *)

Inductive attribut :=
| Champ_fichier_pdf_entree
| Champ_elements
| Methode_init
| Methode_ajouter_texte
| Methode_ajouter_image
| Methode_generer
| Methode_reinitialiser.

Definition EditeurPDF_dict : list (string * attribut) :=
  [ ("fichier_pdf_entree", Champ_fichier_pdf_entree);
    ("elements", Champ_elements);
    ("__init__", Methode_init);
    ("ajouter_texte", Methode_ajouter_texte);
    ("ajouter_image", Methode_ajouter_image);
    ("generer", Methode_generer);
    ("reinitialiser", Methode_reinitialiser) ].

Fixpoint chercher (nom : string) (d : list (string * attribut))
    : resultat attribut :=
  match d with
  | [] => Err AttributeError
  | (n, a) :: reste => if String.eqb nom n then Ok a else chercher nom reste
  end.

Definition EditeurPDF_getattr (nom : string) : resultat attribut :=
  chercher nom EditeurPDF_dict.

(** [len(self.elements)], the only place the program counts the queue. *)
Definition len_elements (self : ref) (w : monde) : option nat :=
  (fun ed => length (elements ed)) <$> tas w !! self.

(** A second world: the editor has a text queued on page 0 and, on page 1,
    an image whose file does not exist. *)
Definition texte_hello : elem_texte :=
  {| t_texte := "Hello" +:+ nl +:+ "World"; t_x := PInt 10; t_y := PInt 700;
     t_page := 0; t_taille_police := PInt 10; t_police := "Helvetica";
     t_couleur := "#000000"; t_rotation := PInt 0; t_opacite := PFloat 1 |}.

Definition image_absente : elem_image :=
  {| i_chemin_image := "absent.png"; i_x := PInt 0; i_y := PInt 0;
     i_page := 1; i_largeur := None; i_hauteur := None;
     i_conserver_ratio := true; i_rotation := PInt 0; i_opacite := PFloat 1 |}.

Definition monde_image_absente : monde :=
  avec_tas
    {[ 0%nat := avec_elements [Texte texte_hello; Image image_absente]
                  editeur_exemple ]}
    monde_exemple.

(** ** Notions used to state the grouping properties *)

(** The descriptors registered for page [n], in registration order. *)
Definition groupe (els : list element) (n : Z) : list element :=
  filter (fun elem => page_de elem = n) els.

(** The descriptors whose page index names a page of a document of
    [nb_pages] pages. *)
Definition elements_rendus (nb_pages : nat) (els : list element)
    : list element :=
  filter (fun elem => 0 <= page_de elem < Z.of_nat nb_pages) els.

(** A third world: three descriptors that would each raise if painted (unknown
    font, malformed colour, missing image), all on pages the two-page
    document does not have. *)
Definition texte_hors_document (page : Z) (police couleur : string)
    : elem_texte :=
  {| t_texte := "x"; t_x := PInt 0; t_y := PInt 0; t_page := page;
     t_taille_police := PInt 12; t_police := police; t_couleur := couleur;
     t_rotation := PInt 0; t_opacite := PFloat 1 |}.

Definition elements_hors_document : list element :=
  [ Texte (texte_hors_document 2 "Inconnue" "#000000");
    Texte (texte_hors_document (-1) "Helvetica" "rouge");
    Image {| i_chemin_image := "absent.png"; i_x := PInt 0; i_y := PInt 0;
             i_page := 7; i_largeur := None; i_hauteur := None;
             i_conserver_ratio := true; i_rotation := PInt 0;
             i_opacite := PFloat 1 |} ].

Definition monde_hors_document : monde :=
  avec_tas {[ 0%nat := avec_elements elements_hors_document editeur_exemple ]}
    monde_exemple.

(** The image files a queue refers to. *)
Definition chemins_images (els : list element) : list string :=
  omap (fun elem => match elem with
                    | Image i => Some (i_chemin_image i)
                    | Texte _ => None
                    end) els.

(** A fourth world: the text of [texte_hello] and the logo, both on page 0. *)
Definition image_logo : elem_image :=
  {| i_chemin_image := "resources/adobe_logo.png"; i_x := PInt 185;
     i_y := PInt 115; i_page := 0; i_largeur := Some (PInt 50);
     i_hauteur := None; i_conserver_ratio := true; i_rotation := PInt 0;
     i_opacite := PFloat 1 |}.

Definition monde_annote : monde :=
  avec_tas
    {[ 0%nat := avec_elements [Texte texte_hello; Image image_logo]
                  editeur_exemple ]}
    monde_exemple.

(** ** Notions used to state the painting properties *)

(** The number of line breaks in a string. *)
Fixpoint nb_sauts (s : string) : nat :=
  match s with
  | EmptyString => O
  | String c r =>
      if Ascii.eqb c "010"%char then S (nb_sauts r) else nb_sauts r
  end.

(** [y - k * taille_police * 1.2], with Python's arithmetic. *)
Definition ordonnee_ligne (elem : elem_texte) (k : nat) : resultat pynum :=
  p ← py_mul (PInt (Z.of_nat k)) (t_taille_police elem);
  q ← py_mul p (PFloat 1.2);
  py_sub (t_y elem) q.

(** [-k * taille_police * 1.2], with Python's arithmetic. *)
Definition ordonnee_ligne_rotation (elem : elem_texte) (k : nat)
    : resultat pynum :=
  p ← py_mul (py_neg (PInt (Z.of_nat k))) (t_taille_police elem);
  py_mul p (PFloat 1.2).

Definition est_DrawString (op : canvas_op) : Prop :=
  match op with
  | DrawString _ _ _ => True
  | _ => False
  end.

Definition reussit {A} (r : resultat A) : Prop := exists a, r = Ok a.

(** The loop shared by the two branches of the text painter: line [i + k] is
    drawn at abscissa [x] and at the ordinate [ord (i + k)]. *)
Fixpoint boucle_lignes (x : pynum) (ord : nat -> resultat pynum) (i : nat)
    (lignes : list string) (can : Canvas) : resultat Canvas :=
  match lignes with
  | [] => Ok can
  | ligne :: reste =>
      y_offset ← ord i;
      boucle_lignes x ord (S i) reste (emettre can (DrawString x y_offset ligne))
  end.


(** A fifth world: a one-page document and the single text of the
    Hello / World scenario. *)
Definition monde_hello : monde :=
  {| tas := {[ 0%nat := avec_elements [Texte texte_hello] editeur_exemple ]};
     fichiers := {[ "document.pdf" := FichierPDF [page_a4 "vierge"] ]};
     proteges := ∅;
     console := [];
     date_du_jour := "03/11/2026" |}.

(** ** The script at the end of [main.py] *)

Section Script.

Variable HexColor : string -> option Color.
Variable police_connue : string -> bool.

(** The [if __name__ == "__main__":] block. *)
Definition principal : M unit :=
  editeur ← EditeurPDF_init "document.pdf";
  signer_pdf_region editeur (PInt 50) (PInt 150) 0
    (Some (PInt 150)) (Some (PInt 50)) true "resources/adobe_logo.png";;
  generer HexColor police_connue editeur "document_complet_annote.pdf".

End Script.

(** ** Sequences of registration calls

    A call of [ajouter_texte] or [ajouter_image] with its arguments, so that
    statements can range over every sequence of such calls on one editor. *)







(** ** Notions used to state the properties of a painted page *)

(** The exception a computation raised, if any. *)
Definition erreur {A} (r : resultat A) : option exception :=
  match r with
  | Ok _ => None
  | Err e => Some e
  end.

(** A canvas call other than [saveState] / [restoreState]. *)
Definition sans_etat (op : canvas_op) : Prop :=
  match op with
  | SaveState | RestoreState => False
  | _ => True
  end.

(** What one descriptor puts between its [saveState] and [restoreState]: a
    text starts by selecting its font, an image ends with its one
    [drawImage]. *)
Definition bloc_convient (elem : element) (bloc : list canvas_op) : Prop :=
  Forall sans_etat bloc /\
  match elem with
  | Texte t =>
      exists suite,
        bloc = SetFont (t_police t) (t_taille_police t) :: suite /\
        Forall (fun op => match op with
                          | DrawImage _ _ _ _ _ _ _ => False
                          | _ => True
                          end) suite
  | Image i =>
      exists avant x y largeur_finale hauteur_finale,
        bloc = avant ++
               [DrawImage (i_chemin_image i) x y largeur_finale hauteur_finale
                  (i_conserver_ratio i) "auto"] /\
        Forall (fun op => match op with
                          | SetFillAlpha _ | SetStrokeAlpha _
                          | Translate _ _ | Rotate _ => True
                          | _ => False
                          end) avant
  end.

(** The calls of a page overlay: one bracketed block per descriptor. *)
Definition code_des_blocs (blocs : list (list canvas_op)) : list canvas_op :=
  concat (map (fun bloc => SaveState :: bloc ++ [RestoreState]) blocs).

(** ** Notions used to state which exception [generer] raises *)




(** The calls the script puts on the first page of [document.pdf]: the logo
    block, the boilerplate block and the signer block. *)
Definition calque_signature (noir_rl : Color) (date : string)
    : list canvas_op :=
  [ SaveState;
    SetFillAlpha (PFloat 1); SetStrokeAlpha (PFloat 1);
    DrawImage "resources/adobe_logo.png" (PInt 185) (PInt 115)
      (PInt 70) (PInt 70) true "auto";
    RestoreState;
    SaveState;
    SetFont "Helvetica-Bold" (PInt 6); SetFillColor noir_rl;
    SetFillAlpha (PFloat 1);
    DrawString (PInt 50) (PFloat 150)
      "Lorem ipsum dolor sit amet, consectetur adipiscing elit. ";
    DrawString (PInt 50) (PFloat 142.80000000000001)
      "Pellentesque fermentum aliquam urna eu bibendum. ";
    DrawString (PInt 50) (PFloat 135.59999999999999)
      "Morbi sit amet blandit purus.";
    RestoreState;
    SaveState;
    SetFont "Helvetica-Bold" (PInt 8); SetFillColor noir_rl;
    SetFillAlpha (PFloat 1);
    DrawString (PInt 220) (PFloat 155) "M. John Doe";
    DrawString (PInt 220) (PFloat 145.40000000000001) "Certified Adobe";
    DrawString (PInt 220) (PFloat 135.80000000000001) ("Signé le " +:+ date);
    RestoreState ].

(** * Properties *)

(** ** The monad *)

Lemma M_bind_ok {A B} (m : M A) (k : A -> M B) w a w' :
  m w = (Ok a, w') -> (m ≫= k) w = k a w'.
Proof. intros H. unfold mbind, M_bind. now rewrite H. Qed.

Lemma M_bind_err {A B} (m : M A) (k : A -> M B) w e w' :
  m w = (Err e, w') -> (m ≫= k) w = (Err e, w').
Proof. intros H. unfold mbind, M_bind. now rewrite H. Qed.

(** ** Arithmetic on literals *)

Lemma py_add_litteral n d :
  is_infinity (SF2Prim (Z2SF d)) = false ->
  py_add n (PInt d) = Ok (plus_litteral n d).
Proof.
  intros H. destruct n as [z|f]; [reflexivity|].
  unfold py_add, arith, py_float, float_of_Z, float_fini.
  rewrite H. reflexivity.
Qed.

Lemma py_sub_litteral n d :
  is_infinity (SF2Prim (Z2SF d)) = false ->
  py_sub n (PInt d) = Ok (moins_litteral n d).
Proof.
  intros H. destruct n as [z|f]; [reflexivity|].
  unfold py_sub, arith, py_float, float_of_Z, float_fini.
  rewrite H. reflexivity.
Qed.

(** ** The store *)

Lemma elements_append_ok w self ed elem :
  tas w !! self = Some ed ->
  elements_append self elem w =
    (Ok tt, avec_tas (<[self := avec_elements (elements ed ++ [elem]) ed]> (tas w)) w).
Proof.
  intros H. unfold elements_append, mbind, M_bind, lire_objet, ecrire_objet.
  now rewrite H.
Qed.

Lemma ajouter_texte_ok w self ed texte x y page taille police couleur rot op :
  tas w !! self = Some ed ->
  ajouter_texte self texte x y page taille police couleur rot op w =
    (Ok tt,
     avec_console (console w ++ [MsgTexteAjoute texte page x y])
       (avec_tas
          (<[self := avec_elements
               (elements ed ++
                  [Texte {| t_texte := texte; t_x := x; t_y := y;
                            t_page := page; t_taille_police := taille;
                            t_police := police; t_couleur := couleur;
                            t_rotation := rot; t_opacite := op |}]) ed]>
             (tas w)) w)).
Proof.
  intros H. unfold ajouter_texte.
  erewrite M_bind_ok by (apply elements_append_ok; eassumption).
  reflexivity.
Qed.

Lemma ajouter_image_ok w self ed chemin x y page largeur hauteur ratio rot op :
  tas w !! self = Some ed ->
  ajouter_image self chemin x y page largeur hauteur ratio rot op w =
    (Ok tt,
     avec_console (console w ++ [MsgImageAjoutee chemin page x y])
       (avec_tas
          (<[self := avec_elements
               (elements ed ++
                  [Image {| i_chemin_image := chemin; i_x := x; i_y := y;
                            i_page := page; i_largeur := largeur;
                            i_hauteur := hauteur; i_conserver_ratio := ratio;
                            i_rotation := rot; i_opacite := op |}]) ed]>
             (tas w)) w)).
Proof.
  intros H. unfold ajouter_image.
  erewrite M_bind_ok by (apply elements_append_ok; eassumption).
  reflexivity.
Qed.

(** The complete effect of one call of [signer_pdf_region] on a live editor. *)
Lemma signer_pdf_region_effet w ed e x y page largeur hauteur ratio logo :
  tas w !! ed = Some e ->
  signer_pdf_region ed x y page largeur hauteur ratio logo w =
    (Ok ed,
     avec_console
       (console w ++ journal_signature x y page logo (date_du_jour w))
       (avec_tas
          (<[ed := avec_elements
               (elements e ++
                  bloc_signature x y page ratio logo (date_du_jour w)) e]>
             (tas w)) w)).
Proof.
  intros H. unfold signer_pdf_region, pur.
  rewrite (M_bind_ok _ _ w (plus_litteral x 135) w)
    by (now rewrite py_add_litteral by reflexivity).
  rewrite (M_bind_ok _ _ w (moins_litteral y 35) w)
    by (now rewrite py_sub_litteral by reflexivity).
  erewrite M_bind_ok by (apply ajouter_image_ok; eassumption).
  erewrite M_bind_ok
    by (apply ajouter_texte_ok; simpl; apply lookup_insert_eq).
  match goal with |- mbind _ _ ?w1 = _ =>
    rewrite (M_bind_ok _ _ w1 (plus_litteral (plus_litteral x 135) 35) w1)
      by (now rewrite py_add_litteral by reflexivity);
    rewrite (M_bind_ok _ _ w1 (plus_litteral y 5) w1)
      by (now rewrite py_add_litteral by reflexivity);
    rewrite (M_bind_ok _ _ w1 (date_du_jour w) w1) by reflexivity
  end.
  erewrite M_bind_ok
    by (apply ajouter_texte_ok; simpl; apply lookup_insert_eq).
  unfold mret, M_ret, avec_console, avec_tas, avec_elements,
    bloc_signature, journal_signature; simpl.
  rewrite !insert_insert_eq, <- !app_assoc. reflexivity.
Qed.

(** ** The signature block *)





(** ** [generer] as a whole *)

(** The four ways [generer] can end, in the order the code reaches them. *)
Lemma generer_cas HexColor police_connue w self sortie :
  generer HexColor police_connue self sortie w =
    match tas w !! self with
    | None => (Err AttributeError, w)
    | Some ed =>
        match PdfReader (fichiers w) (fichier_pdf_entree ed) with
        | Err e => (Err e, w)
        | Ok pages =>
            match traiter_pages HexColor police_connue (fichiers w)
                    (organiser (elements ed) ∅) 0 pages [] with
            | Err e => (Err e, w)
            | Ok resultat_pages =>
                if decide (sortie ∈ proteges w) then (Err (OSError sortie), w)
                else
                  (Ok tt,
                   avec_console
                     (console w ++
                        [MsgPdfGenere sortie;
                         MsgTotalElements (length (elements ed))])
                     (avec_fichiers
                        (<[sortie := FichierPDF resultat_pages]> (fichiers w)) w))
            end
        end
    end.
Proof.
  unfold generer, mbind, M_bind, lire_objet, ecrire_pdf, print.
  destruct (tas w !! self) as [ed|] eqn:Hed; [|reflexivity].
  destruct (PdfReader _ _) as [pages|e]; [|reflexivity].
  destruct (traiter_pages _ _ _ _ _ _ _) as [res|e]; [|reflexivity].
  destruct (decide _); [reflexivity|].
  simpl. rewrite Hed. simpl.
  unfold avec_console, avec_fichiers. simpl.
  now rewrite <- app_assoc.
Qed.

(** A merge always shows on the page. *)
Lemma merge_page_visible page calque : merge_page page calque <> page.
Proof.
  intros H. apply (f_equal (fun p => length (fusions p))) in H.
  simpl in H. rewrite length_app in H. simpl in H. lia.
Qed.

Lemma traiter_pages_sans_groupe HexColor police_connue fs
    (epp : gmap Z (list element)) pages :
  forall num_page sortie,
    (forall k, num_page <= k < num_page + Z.of_nat (length pages) ->
               epp !! k = None) ->
    traiter_pages HexColor police_connue fs epp num_page pages sortie =
      Ok (sortie ++ pages).
Proof.
  induction pages as [|p pages IH]; intros n sortie H; simpl.
  - now rewrite app_nil_r.
  - unfold traiter_page. rewrite (H n) by (simpl length; lia). simpl.
    rewrite IH.
    + now rewrite <- app_assoc.
    + intros k Hk. apply H. simpl length. lia.
Qed.

(** C1: with nothing queued, no page has a group of descriptors (so the
    branch that creates a canvas and merges it is never taken), every page is
    handed to the writer as it was read, in order, and the file written holds
    exactly the pages of the source. *)
Theorem generer_sans_elements
    HexColor police_connue w self ed pages sortie :
  tas w !! self = Some ed ->
  elements ed = [] ->
  PdfReader (fichiers w) (fichier_pdf_entree ed) = Ok pages ->
  sortie ∉ proteges w ->
  (forall num_page, organiser (elements ed) ∅ !! num_page = None) /\
  (forall num_page page,
     traiter_page HexColor police_connue (fichiers w)
       (organiser (elements ed) ∅) num_page page = Ok page) /\
  traiter_pages HexColor police_connue (fichiers w)
    (organiser (elements ed) ∅) 0 pages [] = Ok pages /\
  exists w',
    generer HexColor police_connue self sortie w = (Ok tt, w') /\
    fichiers w' = <[sortie := FichierPDF pages]> (fichiers w) /\
    tas w' = tas w.
Proof.
  intros Hed Hels Hpdf Hw.
  assert (Hgroupe : forall n : Z, organiser (elements ed) ∅ !! n = None).
  { intros n. rewrite Hels. simpl. apply lookup_empty. }
  assert (Hpages : traiter_pages HexColor police_connue (fichiers w)
                     (organiser (elements ed) ∅) 0 pages [] = Ok pages).
  { rewrite traiter_pages_sans_groupe; [reflexivity|]. intros; apply Hgroupe. }
  split; [exact Hgroupe|]. split.
  { intros n p. unfold traiter_page. now rewrite Hgroupe. }
  split; [exact Hpages|].
  eexists. rewrite generer_cas, Hed, Hpdf, Hpages.
  destruct (decide (sortie ∈ proteges w)) as [Hin|_]; [contradiction|].
  split; [reflexivity|]. split; reflexivity.
Qed.

Lemma generer_sans_elements_temoin :
  tas monde_exemple !! 0%nat = Some editeur_exemple /\
  elements editeur_exemple = [] /\
  PdfReader (fichiers monde_exemple) "document.pdf" =
    Ok [page_a4 "page 1"; page_a4 "page 2"] /\
  ("copie.pdf" ∉ proteges monde_exemple) /\
  exists w',
    generer HexColor_exemple polices_exemple 0%nat "copie.pdf" monde_exemple =
      (Ok tt, w') /\
    fichiers w' =
      <["copie.pdf" := FichierPDF [page_a4 "page 1"; page_a4 "page 2"]]>
        (fichiers monde_exemple) /\
    tas w' = tas monde_exemple.
Proof.
  assert (H0 : tas monde_exemple !! 0%nat = Some editeur_exemple)
    by reflexivity.
  assert (H1 : PdfReader (fichiers monde_exemple)
                 (fichier_pdf_entree editeur_exemple) =
               Ok [page_a4 "page 1"; page_a4 "page 2"]) by reflexivity.
  assert (H2 : "copie.pdf" ∉ proteges monde_exemple)
    by apply not_elem_of_empty.
  split; [exact H0|]. split; [reflexivity|]. split; [exact H1|].
  split; [exact H2|].
  exact (proj2 (proj2 (proj2
    (generer_sans_elements HexColor_exemple polices_exemple monde_exemple
       0%nat editeur_exemple _ "copie.pdf" H0 eq_refl H1 H2)))).
Defined.

(** C7: when the page loop raises, [generer] returns that very exception and
    the world is left as it was: no file is created or replaced.  Conversely a
    call that changed the file system went through the whole page loop. *)
Theorem generer_echec_aucune_ecriture
    HexColor police_connue w self ed pages sortie :
  tas w !! self = Some ed ->
  PdfReader (fichiers w) (fichier_pdf_entree ed) = Ok pages ->
  (forall e,
     traiter_pages HexColor police_connue (fichiers w)
       (organiser (elements ed) ∅) 0 pages [] = Err e ->
     generer HexColor police_connue self sortie w = (Err e, w)) /\
  (forall r w',
     generer HexColor police_connue self sortie w = (r, w') ->
     fichiers w' <> fichiers w ->
     r = Ok tt /\
     exists resultat_pages,
       traiter_pages HexColor police_connue (fichiers w)
         (organiser (elements ed) ∅) 0 pages [] = Ok resultat_pages /\
       fichiers w' = <[sortie := FichierPDF resultat_pages]> (fichiers w)).
Proof.
  intros Hed Hpdf. split.
  - intros e He. now rewrite generer_cas, Hed, Hpdf, He.
  - intros r w'. rewrite generer_cas, Hed, Hpdf.
    destruct (traiter_pages _ _ _ _ _ _ _) as [res|e].
    + destruct (decide _); intros [= <- <-] Hneq.
      * now contradict Hneq.
      * split; [reflexivity|]. now exists res.
    + intros [= <- <-] Hneq. now contradict Hneq.
Qed.

Lemma generer_echec_aucune_ecriture_temoin :
  generer HexColor_exemple polices_exemple 0%nat "sortie.pdf"
    monde_image_absente =
    (Err (FileNotFoundError "absent.png"), monde_image_absente) /\
  fichiers monde_image_absente !! "sortie.pdf" = None.
Proof.
  split; [|reflexivity].
  refine (proj1
    (generer_echec_aucune_ecriture HexColor_exemple polices_exemple
       monde_image_absente 0%nat
       (avec_elements [Texte texte_hello; Image image_absente] editeur_exemple)
       [page_a4 "page 1"; page_a4 "page 2"] "sortie.pdf" _ _) _ _).
  - reflexivity.
  - reflexivity.
  - vm_compute. reflexivity.
Defined.

(** ** Counting the queue *)

(** C9 as stated fails: the class has no [pending_count]; looking the name up
    on an editor raises [AttributeError]. *)
Lemma pending_count_absent :
  ~ exists a, EditeurPDF_getattr "pending_count" = Ok a.
Proof. intros [a H]. vm_compute in H. discriminate H. Qed.

(** C9, amended: the store has no [pending_count] operation; the number of
    descriptors queued is [len(self.elements)], it is what the final summary of
    a successful [generer] prints, and [generer] leaves it unchanged. *)
Theorem generer_resume_compte HexColor police_connue w self sortie w' :
  generer HexColor police_connue self sortie w = (Ok tt, w') ->
  EditeurPDF_getattr "pending_count" = Err AttributeError /\
  exists n,
    len_elements self w = Some n /\
    len_elements self w' = Some n /\
    console w' = console w ++ [MsgPdfGenere sortie; MsgTotalElements n].
Proof.
  intros H. split; [reflexivity|].
  rewrite generer_cas in H. unfold len_elements.
  destruct (tas w !! self) as [ed|] eqn:Hed; [|discriminate H].
  destruct (PdfReader _ _) as [pages|e]; [|discriminate H].
  destruct (traiter_pages _ _ _ _ _ _ _) as [res|e]; [|discriminate H].
  destruct (decide _); [discriminate H|].
  injection H as <-. exists (length (elements ed)).
  simpl. rewrite Hed. repeat split.
Qed.

Lemma generer_resume_compte_temoin :
  exists w',
    generer HexColor_exemple polices_exemple 0%nat "sortie.pdf" monde_annote =
      (Ok tt, w') /\
    EditeurPDF_getattr "pending_count" = Err AttributeError /\
    len_elements 0%nat monde_annote = Some 2%nat /\
    len_elements 0%nat w' = Some 2%nat /\
    console w' = [MsgPdfGenere "sortie.pdf"; MsgTotalElements 2].
Proof.
  set (w' := snd (generer HexColor_exemple polices_exemple 0%nat "sortie.pdf"
                    monde_annote)).
  assert (H : generer HexColor_exemple polices_exemple 0%nat "sortie.pdf"
                monde_annote = (Ok tt, w')) by (vm_compute; reflexivity).
  destruct (generer_resume_compte HexColor_exemple polices_exemple
              monde_annote 0%nat "sortie.pdf" w' H)
    as (Hattr & n & Hn & Hn' & Hconsole).
  assert (Hdeux : Some 2%nat = Some n) by exact Hn.
  injection Hdeux as <-.
  exists w'. split; [exact H|]. split; [exact Hattr|].
  split; [exact Hn|]. split; [exact Hn'|exact Hconsole].
Defined.

(** ** Grouping by page *)

Lemma organiser_lookup els :
  forall (m : gmap Z (list element)) n,
    organiser els m !! n =
      match groupe els n with
      | [] => m !! n
      | l => Some (default [] (m !! n) ++ l)
      end.
Proof.
  unfold groupe.
  induction els as [|elem reste IH]; intros m n; [reflexivity|].
  cbn [organiser]. rewrite IH. clear IH.
  set (epp := match m !! page_de elem with
              | Some _ => m
              | None => <[page_de elem := []]> m
              end).
  assert (Hepp : default [] (epp !! page_de elem) = default [] (m !! page_de elem)).
  { subst epp. destruct (m !! page_de elem) as [l|] eqn:E.
    - now rewrite E.
    - now rewrite lookup_insert_eq. }
  assert (Hautre : page_de elem <> n -> epp !! n = m !! n).
  { intros Hne. subst epp. destruct (m !! page_de elem); [reflexivity|].
    now rewrite lookup_insert_ne. }
  rewrite filter_cons. destruct (decide (page_de elem = n)) as [Heq|Hne].
  - rewrite Heq in *. rewrite lookup_insert_eq, Hepp. simpl.
    destruct (filter _ reste) as [|e l]; [reflexivity|].
    now rewrite <- app_assoc.
  - rewrite lookup_insert_ne by exact Hne. rewrite (Hautre Hne). reflexivity.
Qed.

(** From an empty dictionary, page [n] has a group exactly when some
    descriptor names it, and the group is those descriptors in order. *)
Lemma organiser_vide_lookup els n :
  organiser els ∅ !! n =
    match groupe els n with
    | [] => None
    | l => Some l
    end.
Proof.
  rewrite organiser_lookup, lookup_empty. now destruct (groupe els n).
Qed.

Lemma groupe_elements_rendus nb_pages els n :
  0 <= n < Z.of_nat nb_pages ->
  groupe (elements_rendus nb_pages els) n = groupe els n.
Proof.
  intros Hn. unfold groupe, elements_rendus.
  induction els as [|elem reste IH]; [reflexivity|].
  rewrite !filter_cons.
  destruct (decide (page_de elem = n)) as [Heq|Hne].
  - rewrite decide_True by lia. rewrite filter_cons, decide_True by exact Heq.
    now rewrite IH.
  - destruct (decide (0 <= page_de elem < Z.of_nat nb_pages)); [|exact IH].
    rewrite filter_cons, decide_False by exact Hne. exact IH.
Qed.

(** The page loop only reads the dictionary at the indices it visits. *)
Lemma traiter_pages_ext HexColor police_connue fs
    (epp1 epp2 : gmap Z (list element)) pages :
  forall num_page sortie,
    (forall k, num_page <= k < num_page + Z.of_nat (length pages) ->
               epp1 !! k = epp2 !! k) ->
    traiter_pages HexColor police_connue fs epp1 num_page pages sortie =
      traiter_pages HexColor police_connue fs epp2 num_page pages sortie.
Proof.
  induction pages as [|p pages IH]; intros n sortie H; [reflexivity|].
  cbn [traiter_pages].
  assert (Hp : traiter_page HexColor police_connue fs epp1 n p =
               traiter_page HexColor police_connue fs epp2 n p).
  { unfold traiter_page. now rewrite (H n) by (simpl length; lia). }
  rewrite Hp.
  destruct (traiter_page _ _ _ epp2 n p) as [page|e]; [|reflexivity]. simpl.
  apply IH. intros k Hk. apply H. simpl length. lia.
Qed.

Lemma traiter_pages_elements_rendus HexColor police_connue fs els pages :
  traiter_pages HexColor police_connue fs (organiser els ∅) 0 pages [] =
    traiter_pages HexColor police_connue fs
      (organiser (elements_rendus (length pages) els) ∅) 0 pages [].
Proof.
  apply traiter_pages_ext. intros k Hk.
  rewrite !organiser_vide_lookup, groupe_elements_rendus by lia.
  reflexivity.
Qed.

(** C6: descriptors whose page index is negative or not below the page count
    are never painted and never raise: [generer] returns the same result and
    writes the same file as it does with those descriptors removed from the
    queue.  When no descriptor names an existing page the call succeeds and
    the file written holds the source pages unchanged. *)
Theorem generer_pages_inexistantes
    HexColor police_connue w self ed pages sortie :
  tas w !! self = Some ed ->
  PdfReader (fichiers w) (fichier_pdf_entree ed) = Ok pages ->
  traiter_pages HexColor police_connue (fichiers w)
      (organiser (elements ed) ∅) 0 pages [] =
    traiter_pages HexColor police_connue (fichiers w)
      (organiser (elements_rendus (length pages) (elements ed)) ∅) 0 pages [] /\
  fst (generer HexColor police_connue self sortie w) =
    fst (generer HexColor police_connue self sortie
           (avec_tas
              (<[self := avec_elements
                   (elements_rendus (length pages) (elements ed)) ed]> (tas w))
              w)) /\
  fichiers (snd (generer HexColor police_connue self sortie w)) =
    fichiers (snd (generer HexColor police_connue self sortie
           (avec_tas
              (<[self := avec_elements
                   (elements_rendus (length pages) (elements ed)) ed]> (tas w))
              w))) /\
  (elements_rendus (length pages) (elements ed) = [] ->
   sortie ∉ proteges w ->
   exists w',
     generer HexColor police_connue self sortie w = (Ok tt, w') /\
     fichiers w' = <[sortie := FichierPDF pages]> (fichiers w)).
Proof.
  intros Hed Hpdf.
  pose proof (traiter_pages_elements_rendus HexColor police_connue
                (fichiers w) (elements ed) pages) as Hpages.
  split; [exact Hpages|].
  rewrite !generer_cas. cbn [tas fichiers proteges console avec_tas].
  rewrite lookup_insert_eq, Hed. cbn [fichier_pdf_entree elements avec_elements].
  rewrite Hpdf, <- Hpages.
  split; [|split].
  - destruct (traiter_pages _ _ _ _ _ _ _); [|reflexivity].
    now destruct (decide _).
  - destruct (traiter_pages _ _ _ _ _ _ _); [|reflexivity].
    now destruct (decide _).
  - intros Hvide Hw. rewrite Hpages, Hvide. cbn [organiser].
    rewrite traiter_pages_sans_groupe by (intros; apply lookup_empty).
    rewrite decide_False by exact Hw. eexists. split; reflexivity.
Qed.

Lemma generer_pages_inexistantes_temoin :
  elements_rendus 2 elements_hors_document = [] /\
  exists w',
    generer HexColor_exemple polices_exemple 0%nat "sortie.pdf"
      monde_hors_document = (Ok tt, w') /\
    fichiers w' =
      <["sortie.pdf" := FichierPDF [page_a4 "page 1"; page_a4 "page 2"]]>
        (fichiers monde_hors_document).
Proof.
  split; [reflexivity|].
  refine (proj2 (proj2 (proj2
    (generer_pages_inexistantes HexColor_exemple polices_exemple
       monde_hors_document 0%nat
       (avec_elements elements_hors_document editeur_exemple)
       [page_a4 "page 1"; page_a4 "page 2"] "sortie.pdf" _ _))) _ _).
  - reflexivity.
  - reflexivity.
  - reflexivity.
  - apply not_elem_of_empty.
Defined.

(** ** What the page loop reads from the file system *)

Lemma dessiner_image_fs (fs1 fs2 : gmap string fichier) elem can :
  fs1 !! i_chemin_image elem = fs2 !! i_chemin_image elem ->
  dessiner_image fs1 elem can = dessiner_image fs2 elem can.
Proof.
  intros H. unfold dessiner_image, Image_open_size. now rewrite H.
Qed.

Lemma dessiner_elements_fs HexColor police_connue
    (fs1 fs2 : gmap string fichier) elems :
  forall can,
    (forall chemin, chemin ∈ chemins_images elems ->
                    fs1 !! chemin = fs2 !! chemin) ->
    dessiner_elements HexColor police_connue fs1 elems can =
      dessiner_elements HexColor police_connue fs2 elems can.
Proof.
  induction elems as [|elem reste IH]; intros can H; [reflexivity|].
  cbn [dessiner_elements].
  assert (He : dessiner_element HexColor police_connue fs1 elem can =
               dessiner_element HexColor police_connue fs2 elem can).
  { unfold dessiner_element. destruct elem as [t|i]; [reflexivity|].
    rewrite (dessiner_image_fs fs1 fs2); [reflexivity|].
    apply H. unfold chemins_images. cbn. left. }
  rewrite He. destruct (dessiner_element _ _ fs2 elem can); [|reflexivity].
  simpl. apply IH. intros chemin Hc. apply H.
  unfold chemins_images in *. destruct elem; cbn; [exact Hc|now right].
Qed.

Lemma chemins_images_groupe els n chemin :
  chemin ∈ chemins_images (groupe els n) -> chemin ∈ chemins_images els.
Proof.
  unfold chemins_images, groupe. rewrite !list_elem_of_omap.
  intros (elem & Hin & Hc). exists elem. split; [|exact Hc].
  now apply list_elem_of_filter in Hin.
Qed.

Lemma traiter_pages_fs HexColor police_connue
    (fs1 fs2 : gmap string fichier) els pages :
  (forall chemin, chemin ∈ chemins_images els ->
                  fs1 !! chemin = fs2 !! chemin) ->
  forall num_page sortie,
    traiter_pages HexColor police_connue fs1 (organiser els ∅)
        num_page pages sortie =
      traiter_pages HexColor police_connue fs2 (organiser els ∅)
        num_page pages sortie.
Proof.
  intros H. induction pages as [|p pages IH]; intros n sortie; [reflexivity|].
  cbn [traiter_pages].
  assert (Hp : traiter_page HexColor police_connue fs1 (organiser els ∅) n p =
               traiter_page HexColor police_connue fs2 (organiser els ∅) n p).
  { unfold traiter_page. rewrite organiser_vide_lookup.
    destruct (groupe els n) as [|e l] eqn:Hg; [reflexivity|].
    rewrite (dessiner_elements_fs _ _ fs1 fs2); [reflexivity|].
    intros chemin Hc. apply H. apply (chemins_images_groupe els n).
    now rewrite Hg. }
  rewrite Hp. destruct (traiter_page _ _ fs2 _ n p); [|reflexivity].
  simpl. apply IH.
Qed.

(** C8: [generer] never writes to the heap, so the editor and its queue are
    after the call exactly what they were before, whatever the outcome.  When
    a first call succeeded and the source document and the image files the
    queue refers to are the same for the second call, the second call
    succeeds too and writes the same pages as the first. *)
Theorem generer_store_intact_et_repetable
    HexColor police_connue w self ed :
  tas w !! self = Some ed ->
  (forall sortie r w',
     generer HexColor police_connue self sortie w = (r, w') ->
     tas w' = tas w /\ tas w' !! self = Some ed) /\
  (forall sortie1 sortie2 w1,
     generer HexColor police_connue self sortie1 w = (Ok tt, w1) ->
     fichiers w1 !! fichier_pdf_entree ed = fichiers w !! fichier_pdf_entree ed ->
     (forall chemin, chemin ∈ chemins_images (elements ed) ->
                     fichiers w1 !! chemin = fichiers w !! chemin) ->
     sortie2 ∉ proteges w ->
     exists w2,
       generer HexColor police_connue self sortie2 w1 = (Ok tt, w2) /\
       tas w2 !! self = Some ed /\
       fichiers w2 !! sortie2 = fichiers w1 !! sortie1).
Proof.
  intros Hed. split.
  - intros sortie r w'. rewrite generer_cas, Hed.
    destruct (PdfReader _ _) as [pages|e]; [|now intros [= <- <-]].
    destruct (traiter_pages _ _ _ _ _ _ _) as [res|e]; [|now intros [= <- <-]].
    destruct (decide _); now intros [= <- <-].
  - intros sortie1 sortie2 w1. rewrite generer_cas, Hed.
    destruct (PdfReader (fichiers w) _) as [pages|e] eqn:Hpdf; [|discriminate].
    destruct (traiter_pages _ _ (fichiers w) _ _ _ _) as [res|e] eqn:Hres;
      [|discriminate].
    destruct (decide (sortie1 ∈ _)); [discriminate|].
    intros [= <-] Hsrc Himg Hw2.
    rewrite generer_cas.
    cbn [tas fichiers proteges console avec_console avec_fichiers] in *.
    rewrite Hed.
    assert (Hpdf1 : PdfReader (<[sortie1 := FichierPDF res]> (fichiers w))
                      (fichier_pdf_entree ed) = Ok pages).
    { unfold PdfReader in *. now rewrite Hsrc. }
    rewrite Hpdf1.
    rewrite (traiter_pages_fs _ _ _ (fichiers w)) by exact Himg.
    rewrite Hres, decide_False by exact Hw2.
    eexists. split; [reflexivity|].
    cbn [tas fichiers avec_console avec_fichiers].
    now rewrite Hed, !lookup_insert_eq.
Qed.

Lemma generer_store_intact_et_repetable_temoin :
  exists w1 w2 pages,
    generer HexColor_exemple polices_exemple 0%nat "sortie.pdf" monde_annote =
      (Ok tt, w1) /\
    generer HexColor_exemple polices_exemple 0%nat "sortie2.pdf" w1 =
      (Ok tt, w2) /\
    (tas w1 = tas monde_annote /\
     tas w1 !! 0%nat =
       Some (avec_elements [Texte texte_hello; Image image_logo]
               editeur_exemple)) /\
    tas w2 !! 0%nat =
      Some (avec_elements [Texte texte_hello; Image image_logo]
              editeur_exemple) /\
    fichiers w1 !! "sortie.pdf" = Some (FichierPDF pages) /\
    fichiers w2 !! "sortie2.pdf" = Some (FichierPDF pages).
Proof.
  set (w1 := snd (generer HexColor_exemple polices_exemple 0%nat "sortie.pdf"
                    monde_annote)).
  assert (H1 : generer HexColor_exemple polices_exemple 0%nat "sortie.pdf"
                 monde_annote = (Ok tt, w1)) by (vm_compute; reflexivity).
  pose proof (generer_store_intact_et_repetable HexColor_exemple
                polices_exemple monde_annote 0%nat
                (avec_elements [Texte texte_hello; Image image_logo]
                   editeur_exemple) eq_refl) as [Hintact Hdeux].
  destruct (Hdeux "sortie.pdf" "sortie2.pdf" w1 H1) as (w2 & H2 & Ht2 & Hf2).
  - vm_compute. reflexivity.
  - intros chemin Hc. cbn in Hc. apply list_elem_of_singleton in Hc.
    rewrite Hc. vm_compute. reflexivity.
  - apply not_elem_of_empty.
  - exists w1, w2. eexists. split; [exact H1|]. split; [exact H2|].
    split; [exact (Hintact _ _ _ H1)|]. split; [exact Ht2|].
    assert (Hp : forall p, fichiers w1 !! "sortie.pdf" = p ->
                 fichiers w1 !! "sortie.pdf" = p /\
                 fichiers w2 !! "sortie2.pdf" = p).
    { intros p Hp. split; [exact Hp|]. now rewrite Hf2. }
    apply Hp. vm_compute. reflexivity.
Defined.

(** ** Painting text *)

Lemma split_lignes_length s : length (split_lignes s) = S (nb_sauts s).
Proof.
  induction s as [|c r IH]; [reflexivity|].
  cbn [split_lignes nb_sauts]. destruct (Ascii.eqb c "010").
  - simpl. now rewrite IH.
  - destruct (split_lignes r) as [|l ls]; [discriminate IH|exact IH].
Qed.

Lemma dessiner_lignes_boucle elem lignes :
  forall i can,
    dessiner_lignes elem (Z.of_nat i) lignes can =
      boucle_lignes (t_x elem) (ordonnee_ligne elem) i lignes can.
Proof.
  induction lignes as [|ligne reste IH]; intros i can; [reflexivity|].
  cbn [dessiner_lignes boucle_lignes]. unfold ordonnee_ligne.
  destruct (py_mul (PInt (Z.of_nat i)) _) as [p|e]; [|reflexivity]. simpl.
  destruct (py_mul p _) as [q|e]; [|reflexivity]. simpl.
  destruct (py_sub _ q) as [y|e]; [|reflexivity]. simpl.
  replace (Z.of_nat i + 1) with (Z.of_nat (S i)) by lia. apply IH.
Qed.

Lemma dessiner_lignes_rotation_boucle elem lignes :
  forall i can,
    dessiner_lignes_rotation elem (Z.of_nat i) lignes can =
      boucle_lignes (PInt 0) (ordonnee_ligne_rotation elem) i lignes can.
Proof.
  induction lignes as [|ligne reste IH]; intros i can; [reflexivity|].
  cbn [dessiner_lignes_rotation boucle_lignes]. unfold ordonnee_ligne_rotation.
  destruct (py_mul (py_neg (PInt (Z.of_nat i))) _) as [p|e]; [|reflexivity].
  simpl. destruct (py_mul p _) as [y|e]; [|reflexivity]. simpl.
  replace (Z.of_nat i + 1) with (Z.of_nat (S i)) by lia. apply IH.
Qed.

(** What a successful run of the loop added to the canvas. *)
Lemma boucle_lignes_ok x ord lignes :
  forall i can can',
    boucle_lignes x ord i lignes can = Ok can' ->
    pagesize can' = pagesize can /\
    exists draws,
      code can' = code can ++ draws /\
      length draws = length lignes /\
      Forall est_DrawString draws /\
      forall k ligne,
        lignes !! k = Some ligne ->
        exists yk, ord (i + k)%nat = Ok yk /\
                   draws !! k = Some (DrawString x yk ligne).
Proof.
  induction lignes as [|ligne reste IH]; intros i can can' H.
  - injection H as <-. split; [reflexivity|]. exists [].
    rewrite app_nil_r. repeat split; [constructor|]. intros k l Hk.
    discriminate Hk.
  - cbn [boucle_lignes] in H.
    destruct (ord i) as [y|e] eqn:Hy; [|discriminate H]. simpl in H.
    apply IH in H as (Hps & draws & Hcode & Hlen & Hall & Hk).
    split; [exact Hps|].
    exists (DrawString x y ligne :: draws). simpl in Hcode.
    rewrite <- app_assoc in Hcode. repeat split.
    + exact Hcode.
    + simpl. now rewrite Hlen.
    + constructor; [exact I|exact Hall].
    + intros [|k] l Hl.
      * injection Hl as <-. exists y. rewrite Nat.add_0_r. now split.
      * simpl in Hl. destruct (Hk k l Hl) as (yk & Hyk & Hd).
        exists yk. rewrite Nat.add_succ_r. now split.
Qed.


(** The part of [dessiner_texte] before the line loop. *)
Lemma dessiner_texte_cas HexColor police_connue elem can :
  dessiner_texte HexColor police_connue elem can =
    if police_connue (t_police elem) then
      match HexColor (t_couleur elem) with
      | None => Err (ValueError (t_couleur elem))
      | Some c =>
          let can :=
            {| pagesize := pagesize can;
               code := code can ++
                 [SetFont (t_police elem) (t_taille_police elem);
                  SetFillColor c; SetFillAlpha (t_opacite elem)] |} in
          if py_ne0 (t_rotation elem) then
            boucle_lignes (PInt 0) (ordonnee_ligne_rotation elem) 0
              (split_lignes (t_texte elem))
              {| pagesize := pagesize can;
                 code := code can ++
                   [Translate (t_x elem) (t_y elem);
                    Rotate (t_rotation elem)] |}
          else
            boucle_lignes (t_x elem) (ordonnee_ligne elem) 0
              (split_lignes (t_texte elem)) can
      end
    else Err (KeyError (t_police elem)).
Proof.
  unfold dessiner_texte, setFont, setFillColor_hex.
  destruct (police_connue _); [|reflexivity]. simpl.
  destruct (HexColor _) as [c|]; [|reflexivity]. simpl.
  change 0 with (Z.of_nat 0).
  rewrite dessiner_lignes_boucle, dessiner_lignes_rotation_boucle.
  unfold emettre. simpl. rewrite <- !app_assoc. reflexivity.
Qed.





(** ** Painting images *)



(** ** Two runs of the model *)

(** The Hello / World scenario through [generer]: the page written carries
    one overlay of the page's size with two text runs, at y = 700 and
    y = 688, between [saveState] and [restoreState]. *)
Example generer_hello_world :
  exists w',
    generer HexColor_exemple polices_exemple 0%nat "sortie.pdf" monde_hello =
      (Ok tt, w') /\
    fichiers w' !! "sortie.pdf" =
      Some (FichierPDF
        [merge_page (page_a4 "vierge")
           {| pagesize := (595.2756, 841.8898)%float;
              code :=
                [SaveState; SetFont "Helvetica" (PInt 10);
                 SetFillColor noir; SetFillAlpha (PFloat 1);
                 DrawString (PInt 10) (PFloat 700) "Hello";
                 DrawString (PInt 10) (PFloat 688) "World";
                 RestoreState] |}]).
Proof. eexists. split; vm_compute; reflexivity. Qed.

(** Writing the result over the source changes what a second call reads:
    the second output then carries the overlay twice.  This is why the
    repeatability statement asks for the same source document. *)
Example generer_sur_la_source :
  exists w1 w2 p1 p2,
    generer HexColor_exemple polices_exemple 0%nat "document.pdf" monde_hello =
      (Ok tt, w1) /\
    generer HexColor_exemple polices_exemple 0%nat "document.pdf" w1 =
      (Ok tt, w2) /\
    fichiers w1 !! "document.pdf" = Some (FichierPDF [p1]) /\
    fichiers w2 !! "document.pdf" = Some (FichierPDF [p2]) /\
    length (fusions p1) = 1%nat /\
    length (fusions p2) = 2%nat.
Proof. eexists _, _, _, _. repeat split; vm_compute; reflexivity. Qed.

(** * Further properties of the code *)

(** ** The store: construction, registration, reset *)




(** X2: [EditeurPDF(chemin)] never fails and never looks at the file: it
    returns a reference that was not in use, bound to an editor on [chemin]
    with an empty queue, and changes nothing else.  A source that does not
    exist is only reported by [generer], as [FileNotFoundError], and then
    nothing is written or printed. *)
Theorem EditeurPDF_init_sans_lecture
    HexColor police_connue w chemin sortie :
  exists self w1,
    EditeurPDF_init chemin w = (Ok self, w1) /\
    tas w !! self = None /\
    tas w1 !! self =
      Some {| fichier_pdf_entree := chemin; elements := [] |} /\
    (forall autre, autre <> self -> tas w1 !! autre = tas w !! autre) /\
    fichiers w1 = fichiers w /\
    console w1 = console w /\
    (fichiers w !! chemin = None ->
     generer HexColor police_connue self sortie w1 =
       (Err (FileNotFoundError chemin), w1)).
Proof.
  eexists _, _. split; [reflexivity|]. cbn. split.
  { apply not_elem_of_dom, is_fresh. }
  split; [apply lookup_insert_eq|]. split.
  { intros autre Hne. now rewrite lookup_insert_ne. }
  split; [reflexivity|]. split; [reflexivity|].
  intros Habsent. rewrite generer_cas. cbn.
  rewrite lookup_insert_eq. cbn. unfold PdfReader. now rewrite Habsent.
Qed.

Lemma EditeurPDF_init_sans_lecture_temoin :
  fichiers monde_hello !! "absent.pdf" = None /\
  exists self w1,
    EditeurPDF_init "absent.pdf" monde_hello = (Ok self, w1) /\
    tas monde_hello !! self = None /\
    generer HexColor_exemple polices_exemple self "sortie.pdf" w1 =
      (Err (FileNotFoundError "absent.pdf"), w1).
Proof.
  split; [reflexivity|].
  destruct (EditeurPDF_init_sans_lecture HexColor_exemple polices_exemple
              monde_hello "absent.pdf" "sortie.pdf")
    as (self & w1 & Hinit & Hfrais & _ & _ & _ & _ & Hgen).
  exists self, w1. split; [exact Hinit|]. split; [exact Hfrais|].
  apply Hgen. reflexivity.
Defined.

Lemma reinitialiser_ok w self ed :
  tas w !! self = Some ed ->
  reinitialiser self w =
    (Ok tt,
     avec_console (console w ++ [MsgReinitialise])
       (avec_tas (<[self := avec_elements [] ed]> (tas w)) w)).
Proof.
  intros H. unfold reinitialiser, mbind, M_bind, lire_objet, ecrire_objet.
  now rewrite H.
Qed.

(** X3: [reinitialiser] empties the queue and keeps the source path; a
    [generer] that follows copies the source pages unchanged, whatever had
    been queued before (even descriptors that could not have been painted),
    and its summary counts 0. *)
Theorem reinitialiser_puis_generer
    HexColor police_connue w self ed pages sortie :
  tas w !! self = Some ed ->
  PdfReader (fichiers w) (fichier_pdf_entree ed) = Ok pages ->
  sortie ∉ proteges w ->
  exists w',
    (reinitialiser self;; generer HexColor police_connue self sortie) w =
      (Ok tt, w') /\
    tas w' !! self = Some (avec_elements [] ed) /\
    (forall autre, autre <> self -> tas w' !! autre = tas w !! autre) /\
    fichiers w' = <[sortie := FichierPDF pages]> (fichiers w) /\
    console w' =
      console w ++
      [MsgReinitialise; MsgPdfGenere sortie; MsgTotalElements 0].
Proof.
  intros Hed Hpdf Hw.
  rewrite (M_bind_ok _ _ _ _ _ (reinitialiser_ok w self ed Hed)).
  rewrite generer_cas. cbn. rewrite lookup_insert_eq. cbn. rewrite Hpdf.
  rewrite traiter_pages_sans_groupe by (intros; apply lookup_empty).
  rewrite decide_False by exact Hw. eexists. split; [reflexivity|]. cbn.
  split; [apply lookup_insert_eq|]. split.
  { intros autre Hne. now rewrite lookup_insert_ne. }
  split; [reflexivity|]. now rewrite <- app_assoc.
Qed.

Lemma reinitialiser_puis_generer_temoin :
  exists w',
    (reinitialiser 0%nat;;
     generer HexColor_exemple polices_exemple 0%nat "sortie.pdf")
      monde_image_absente = (Ok tt, w') /\
    tas w' !! 0%nat = Some editeur_exemple /\
    fichiers w' !! "sortie.pdf" =
      Some (FichierPDF [page_a4 "page 1"; page_a4 "page 2"]) /\
    console w' =
      [MsgReinitialise; MsgPdfGenere "sortie.pdf"; MsgTotalElements 0].
Proof.
  destruct (reinitialiser_puis_generer HexColor_exemple polices_exemple
              monde_image_absente 0%nat
              (avec_elements [Texte texte_hello; Image image_absente]
                 editeur_exemple)
              [page_a4 "page 1"; page_a4 "page 2"] "sortie.pdf"
              eq_refl eq_refl (not_elem_of_empty _))
    as (w' & Hrun & Hself & _ & Hfs & Hcons).
  exists w'. split; [exact Hrun|]. split; [exact Hself|].
  split; [|exact Hcons]. rewrite Hfs. apply lookup_insert_eq.
Defined.

(** ** The shape of a painted overlay *)

Lemma dessiner_texte_code HexColor police_connue elem can can' :
  dessiner_texte HexColor police_connue elem can = Ok can' ->
  pagesize can' = pagesize can /\
  exists bloc, code can' = code can ++ bloc /\ bloc_convient (Texte elem) bloc.
Proof.
  rewrite dessiner_texte_cas.
  destruct (police_connue _); [|discriminate].
  destruct (HexColor _) as [c|]; [|discriminate]. cbn zeta.
  destruct (py_ne0 _); intros H;
    apply boucle_lignes_ok in H as (Hps & draws & Hcode & _ & Hall & _);
    (split; [exact Hps|]); cbn [code] in Hcode;
    rewrite <- ?app_assoc in Hcode; eexists; (split; [exact Hcode|]).
  - split.
    + repeat (constructor; [exact I|]).
      eapply Forall_impl; [exact Hall|]. now intros [].
    + eexists. split; [reflexivity|].
      repeat (constructor; [exact I|]).
      eapply Forall_impl; [exact Hall|]. now intros [].
  - split.
    + repeat (constructor; [exact I|]).
      eapply Forall_impl; [exact Hall|]. now intros [].
    + eexists. split; [reflexivity|].
      repeat (constructor; [exact I|]).
      eapply Forall_impl; [exact Hall|]. now intros [].
Qed.

Lemma dessiner_image_code fs elem can can' :
  dessiner_image fs elem can = Ok can' ->
  pagesize can' = pagesize can /\
  exists bloc, code can' = code can ++ bloc /\ bloc_convient (Image elem) bloc.
Proof.
  unfold dessiner_image.
  destruct (Image_open_size _ _) as [[nl nh]|e]; [|discriminate]. simpl.
  destruct (dimensions_finales _ _ _) as [[l h]|e]; [|discriminate]. simpl.
  destruct (py_ne0 _); intros [= <-]; (split; [reflexivity|]); cbn [code emettre];
    rewrite <- !app_assoc; eexists; (split; [reflexivity|]).
  - split; [repeat constructor|].
    exists [SetFillAlpha (i_opacite elem); SetStrokeAlpha (i_opacite elem);
            Translate (i_x elem) (i_y elem); Rotate (i_rotation elem)].
    eexists _, _, _, _. split; [reflexivity|]. repeat constructor.
  - split; [repeat constructor|].
    exists [SetFillAlpha (i_opacite elem); SetStrokeAlpha (i_opacite elem)].
    eexists _, _, _, _. split; [reflexivity|]. repeat constructor.
Qed.

Lemma dessiner_element_code HexColor police_connue fs elem can can' :
  dessiner_element HexColor police_connue fs elem can = Ok can' ->
  pagesize can' = pagesize can /\
  exists bloc,
    code can' = code can ++ SaveState :: bloc ++ [RestoreState] /\
    bloc_convient elem bloc.
Proof.
  unfold dessiner_element. intros H.
  assert (Hin : exists can1,
            match elem with
            | Texte t => dessiner_texte HexColor police_connue t
                           (emettre can SaveState)
            | Image i => dessiner_image fs i (emettre can SaveState)
            end = Ok can1 /\ can' = emettre can1 RestoreState).
  { destruct elem; simpl in H.
    - destruct (dessiner_texte _ _ _ _) as [c1|]; [|discriminate].
      injection H as <-. now exists c1.
    - destruct (dessiner_image _ _ _) as [c1|]; [|discriminate].
      injection H as <-. now exists c1. }
  destruct Hin as (can1 & H1 & ->).
  assert (Hb : pagesize can1 = pagesize can /\
               exists bloc, code can1 = (code can ++ [SaveState]) ++ bloc /\
                            bloc_convient elem bloc).
  { destruct elem.
    - now apply dessiner_texte_code in H1.
    - now apply dessiner_image_code in H1. }
  destruct Hb as (Hps & bloc & Hcode & Hbloc).
  split; [exact Hps|]. exists bloc. split; [|exact Hbloc].
  cbn. rewrite Hcode, <- !app_assoc. reflexivity.
Qed.

(** X4: a page overlay is a sequence of bracketed blocks, one per descriptor
    of the page in registration order: [saveState], the descriptor's own
    calls (none of which saves or restores the state; a text starts with its
    [setFont] and never draws an image, an image only sets the opacities and
    the frame before its single [drawImage]), [restoreState].  So no font,
    colour, opacity or transform of one descriptor reaches the next, and the
    canvas keeps its page size. *)
Theorem dessiner_elements_blocs HexColor police_connue fs elems :
  forall can can',
    dessiner_elements HexColor police_connue fs elems can = Ok can' ->
    pagesize can' = pagesize can /\
    exists blocs,
      code can' = code can ++ code_des_blocs blocs /\
      Forall2 bloc_convient elems blocs.
Proof.
  induction elems as [|elem reste IH]; intros can can' H.
  - injection H as <-. split; [reflexivity|]. exists [].
    unfold code_des_blocs. simpl. rewrite app_nil_r. split; constructor.
  - cbn [dessiner_elements] in H.
    destruct (dessiner_element _ _ _ _ _) as [can1|] eqn:H1; [|discriminate].
    simpl in H. apply dessiner_element_code in H1 as (Hps1 & bloc & Hc1 & Hb).
    apply IH in H as (Hps & blocs & Hc & Hbs).
    split; [congruence|]. exists (bloc :: blocs). split.
    + rewrite Hc, Hc1. unfold code_des_blocs.
      repeat (cbn [map concat app]; rewrite <- ?app_assoc). reflexivity.
    + now constructor.
Qed.

Lemma dessiner_elements_blocs_temoin :
  exists can' b1 b2,
    dessiner_elements HexColor_exemple polices_exemple (fichiers monde_annote)
      [Texte texte_hello; Image image_logo]
      (nouveau_canvas 595.2756 841.8898) = Ok can' /\
    pagesize can' = (595.2756, 841.8898)%float /\
    code can' =
      SaveState :: b1 ++ [RestoreState] ++ SaveState :: b2 ++ [RestoreState] /\
    bloc_convient (Texte texte_hello) b1 /\
    bloc_convient (Image image_logo) b2.
Proof.
  set (r := dessiner_elements HexColor_exemple polices_exemple
              (fichiers monde_annote) [Texte texte_hello; Image image_logo]
              (nouveau_canvas 595.2756 841.8898)).
  assert (Hr : exists can', r = Ok can') by (vm_compute; eexists; reflexivity).
  destruct Hr as [can' Hr].
  destruct (dessiner_elements_blocs _ _ _ _ _ _ Hr) as (Hps & blocs & Hc & Hbs).
  inversion Hbs as [|e1 b1 l1 bs1 Hb1 Hbs1]; subst.
  inversion Hbs1 as [|e2 b2 l2 bs2 Hb2 Hbs2]; subst.
  inversion Hbs2; subst.
  exists can', b1, b2. split; [exact Hr|]. split; [exact Hps|].
  split; [|split; assumption].
  rewrite Hc. unfold code_des_blocs.
  repeat (cbn [map concat app code nouveau_canvas]; rewrite <- ?app_assoc).
  rewrite ?app_nil_r. reflexivity.
Defined.

(** ** Which exception is raised *)

Lemma erreur_None_reussit {A} (r : resultat A) : erreur r = None <-> reussit r.
Proof.
  unfold reussit. destruct r as [a|e]; simpl; split.
  - intros _. now exists a.
  - reflexivity.
  - discriminate.
  - intros [a H]. discriminate H.
Qed.











(** ** The pages written *)

Lemma dessiner_elements_pagesize HexColor police_connue fs elems :
  forall can can',
    dessiner_elements HexColor police_connue fs elems can = Ok can' ->
    pagesize can' = pagesize can.
Proof.
  induction elems as [|elem reste IH]; intros can can' H.
  - now injection H as <-.
  - cbn [dessiner_elements] in H.
    destruct (dessiner_element _ _ _ _ _) as [can1|] eqn:H1; [|discriminate].
    simpl in H. apply dessiner_element_code in H1 as [Hps1 _].
    apply IH in H. congruence.
Qed.

Lemma traiter_pages_ok HexColor police_connue fs
    (epp : gmap Z (list element)) pages :
  forall n sortie res,
    traiter_pages HexColor police_connue fs epp (Z.of_nat n) pages sortie =
      Ok res ->
    exists nouvelles,
      res = sortie ++ nouvelles /\
      length nouvelles = length pages /\
      forall k p,
        pages !! k = Some p ->
        exists p',
          nouvelles !! k = Some p' /\
          traiter_page HexColor police_connue fs epp
            (Z.of_nat (n + k)) p = Ok p'.
Proof.
  induction pages as [|p pages IH]; intros n sortie res H.
  - injection H as <-. exists []. rewrite app_nil_r.
    repeat split. intros k q Hk. discriminate Hk.
  - cbn [traiter_pages] in H.
    destruct (traiter_page _ _ _ _ _ p) as [p'|] eqn:Hp; [|discriminate H].
    simpl in H. replace (Z.of_nat n + 1) with (Z.of_nat (S n)) in H by lia.
    apply IH in H as (nouvelles & -> & Hlen & Hk).
    exists (p' :: nouvelles). rewrite <- app_assoc. split; [reflexivity|].
    split; [simpl; now rewrite Hlen|].
    intros [|k] q Hq.
    + injection Hq as <-. exists p'. rewrite Nat.add_0_r. now split.
    + simpl in Hq. destruct (Hk k q Hq) as (q' & Hq' & Htp).
      exists q'. split; [exact Hq'|].
      now replace (n + S k)%nat with (S n + k)%nat by lia.
Qed.

(** X7: what a successful [generer] writes.  The output has as many pages as
    the source; page k keeps the media box and the content of source page k;
    when no descriptor names k it is the source page itself; otherwise it is
    the source page with exactly one more overlay, whose size is the page's
    media box and whose calls are the painting, on a blank canvas, of the
    descriptors naming k in registration order. *)
Theorem generer_pages_ecrites
    HexColor police_connue w self ed pages sortie w' :
  tas w !! self = Some ed ->
  PdfReader (fichiers w) (fichier_pdf_entree ed) = Ok pages ->
  generer HexColor police_connue self sortie w = (Ok tt, w') ->
  exists res,
    fichiers w' !! sortie = Some (FichierPDF res) /\
    length res = length pages /\
    forall k p,
      pages !! k = Some p ->
      exists p',
        res !! k = Some p' /\
        mediabox_width p' = mediabox_width p /\
        mediabox_height p' = mediabox_height p /\
        contenu p' = contenu p /\
        match groupe (elements ed) (Z.of_nat k) with
        | [] => p' = p
        | g =>
            exists can,
              dessiner_elements HexColor police_connue (fichiers w) g
                (nouveau_canvas (mediabox_width p) (mediabox_height p)) =
                Ok can /\
              pagesize can = (mediabox_width p, mediabox_height p) /\
              fusions p' = fusions p ++ [can]
        end.
Proof.
  intros Hed Hpdf. rewrite generer_cas, Hed, Hpdf.
  destruct (traiter_pages _ _ _ _ _ _ _) as [res|] eqn:Hres; [|discriminate].
  destruct (decide _); [discriminate|]. intros [= <-].
  change 0 with (Z.of_nat 0) in Hres.
  apply traiter_pages_ok in Hres as (nouvelles & -> & Hlen & Hk).
  exists nouvelles. cbn. split; [apply lookup_insert_eq|].
  split; [exact Hlen|]. intros k p Hp.
  destruct (Hk k p Hp) as (p' & Hp' & Htp). exists p'.
  split; [exact Hp'|]. simpl in Htp. unfold traiter_page in Htp.
  rewrite organiser_vide_lookup in Htp.
  destruct (groupe (elements ed) (Z.of_nat k)) as [|e g].
  - injection Htp as <-. now repeat split.
  - destruct (dessiner_elements _ _ _ _ _) as [can|] eqn:Hcan;
      [|discriminate Htp].
    injection Htp as <-. repeat split. exists can.
    split; [exact Hcan|]. split; [|reflexivity].
    now apply dessiner_elements_pagesize in Hcan.
Qed.

Lemma generer_pages_ecrites_temoin :
  exists w' p0 p1 can,
    generer HexColor_exemple polices_exemple 0%nat "sortie.pdf" monde_annote =
      (Ok tt, w') /\
    fichiers w' !! "sortie.pdf" = Some (FichierPDF [p0; p1]) /\
    fusions p0 = [can] /\
    pagesize can = (595.2756, 841.8898)%float /\
    contenu p0 = "page 1" /\
    p1 = page_a4 "page 2".
Proof.
  set (w' := snd (generer HexColor_exemple polices_exemple 0%nat "sortie.pdf"
                    monde_annote)).
  assert (H : generer HexColor_exemple polices_exemple 0%nat "sortie.pdf"
                monde_annote = (Ok tt, w')) by (vm_compute; reflexivity).
  destruct (generer_pages_ecrites HexColor_exemple polices_exemple
              monde_annote 0%nat
              (avec_elements [Texte texte_hello; Image image_logo]
                 editeur_exemple)
              [page_a4 "page 1"; page_a4 "page 2"] "sortie.pdf" w'
              eq_refl eq_refl H) as (res & Hres & Hlen & Hk).
  destruct (Hk 0%nat _ eq_refl) as (p0 & Hp0 & _ & _ & Hc0 & Hg0).
  destruct (Hk 1%nat _ eq_refl) as (p1 & Hp1 & _ & _ & _ & Hg1).
  cbn in Hg0, Hg1. destruct Hg0 as (can & _ & Hps & Hf0).
  destruct res as [|q0 [|q1 [|q2 res]]]; try discriminate Hlen.
  injection Hp0 as ->. injection Hp1 as ->.
  exists w', p0, p1, can. split; [exact H|]. split; [exact Hres|].
  split; [exact Hf0|]. split; [exact Hps|]. split; [exact Hc0|exact Hg1].
Defined.

(** X8: the footprint of [generer].  Whatever the outcome, the heap, the
    protected paths, the date and every file other than the output are as
    before.  On any failure the whole world is as before (nothing printed,
    nothing written); on success the output path holds a PDF and exactly the
    two summary lines were printed. *)
Theorem generer_empreinte HexColor police_connue w self sortie r w' :
  generer HexColor police_connue self sortie w = (r, w') ->
  tas w' = tas w /\
  proteges w' = proteges w /\
  date_du_jour w' = date_du_jour w /\
  (forall chemin, chemin <> sortie ->
                  fichiers w' !! chemin = fichiers w !! chemin) /\
  match r with
  | Err _ => w' = w
  | Ok _ =>
      (exists pages, fichiers w' !! sortie = Some (FichierPDF pages)) /\
      exists n,
        console w' = console w ++ [MsgPdfGenere sortie; MsgTotalElements n]
  end.
Proof.
  rewrite generer_cas.
  destruct (tas w !! self) as [ed|]; [|now intros [= <- <-]].
  destruct (PdfReader _ _) as [pages|e]; [|now intros [= <- <-]].
  destruct (traiter_pages _ _ _ _ _ _ _) as [res|e]; [|now intros [= <- <-]].
  destruct (decide _); intros [= <- <-]; [easy|]. cbn.
  repeat split.
  - intros chemin Hne. now rewrite lookup_insert_ne.
  - exists res. apply lookup_insert_eq.
  - now eexists.
Qed.

Lemma generer_empreinte_temoin :
  exists w',
    generer HexColor_exemple polices_exemple 0%nat "sortie.pdf" monde_annote =
      (Ok tt, w') /\
    tas w' = tas monde_annote /\
    fichiers w' !! "document.pdf" = fichiers monde_annote !! "document.pdf" /\
    (exists pages, fichiers w' !! "sortie.pdf" = Some (FichierPDF pages)) /\
    exists n,
      console w' = [MsgPdfGenere "sortie.pdf"; MsgTotalElements n].
Proof.
  set (w' := snd (generer HexColor_exemple polices_exemple 0%nat "sortie.pdf"
                    monde_annote)).
  assert (H : generer HexColor_exemple polices_exemple 0%nat "sortie.pdf"
                monde_annote = (Ok tt, w')) by (vm_compute; reflexivity).
  destruct (generer_empreinte _ _ _ _ _ _ _ H)
    as (Htas & _ & _ & Hfs & Hpdf & Hcons).
  exists w'. split; [exact H|]. split; [exact Htas|].
  split; [apply Hfs; discriminate|]. split; [exact Hpdf|exact Hcons].
Defined.

(** ** Lines of a text *)

(** X9: splitting a text on line breaks loses nothing: no line contains a
    line break, there is one more line than line breaks, and joining the
    lines with line breaks gives the text back. *)
Theorem split_lignes_recolle s :
  String.concat nl (split_lignes s) = s /\
  Forall (fun ligne => nb_sauts ligne = O) (split_lignes s) /\
  length (split_lignes s) = S (nb_sauts s).
Proof.
  split; [|split; [|apply split_lignes_length]].
  - induction s as [|c r IH]; [reflexivity|].
    cbn [split_lignes]. destruct (Ascii.eqb_spec c "010") as [->|Hc].
    + pose proof (split_lignes_length r) as Hlen.
      destruct (split_lignes r) as [|l ls]; [discriminate Hlen|].
      change (String.concat nl (EmptyString :: l :: ls))
        with (String "010" (String.concat nl (l :: ls))).
      now rewrite IH.
    + pose proof (split_lignes_length r) as Hlen.
      destruct (split_lignes r) as [|l ls]; [discriminate Hlen|].
      rewrite <- IH. destruct ls; reflexivity.
  - induction s as [|c r IH]; [repeat constructor|].
    cbn [split_lignes]. destruct (Ascii.eqb c "010") eqn:Hc.
    + now constructor.
    + destruct (split_lignes r) as [|l ls].
      * constructor; [|constructor]. cbn [nb_sauts]. now rewrite Hc.
      * inversion IH as [|? ? Hl Hls]; subst.
        constructor; [|exact Hls]. cbn [nb_sauts]. now rewrite Hc.
Qed.

(** ** When sizing an image fails *)

Lemma int_truediv_erreur a b e :
  int_truediv a b = Err e ->
  (b = 0 /\ e = ZeroDivisionError) \/ (b <> 0 /\ e = OverflowError).
Proof.
  unfold int_truediv, float_fini. destruct (Z.eqb_spec b 0) as [->|Hb].
  - intros [= <-]. now left.
  - destruct (is_infinity _); [|discriminate]. intros [= <-]. now right.
Qed.

Lemma py_mul_erreur a b e : py_mul a b = Err e -> e = OverflowError.
Proof.
  assert (Hf : forall n e', py_float n = Err e' -> e' = OverflowError).
  { intros [z|f] e'; [|discriminate]. unfold py_float, float_of_Z, float_fini.
    destruct (is_infinity _); [|discriminate]. now intros [= <-]. }
  unfold py_mul, arith. destruct a as [x|fa], b as [y|fb]; try discriminate.
  - simpl. destruct (float_of_Z x) eqn:Hx; [discriminate|].
    intros [= <-]. now apply (Hf (PInt x)).
  - simpl. destruct (float_of_Z y) eqn:Hy; [discriminate|].
    intros [= <-]. now apply (Hf (PInt y)).
Qed.

(** X10: sizing an image can only fail when a ratio is needed, that is when
    [conserver_ratio] is true and exactly one of [largeur] / [hauteur] is
    given.  It then raises [ZeroDivisionError] exactly when the natural
    dimension it divides by (the width when [largeur] is given, the height
    when [hauteur] is given) is 0, and [OverflowError] otherwise. *)
Theorem dimensions_finales_echecs elem nl nh e :
  dimensions_finales elem nl nh = Err e ->
  i_conserver_ratio elem = true /\
  match i_largeur elem, i_hauteur elem with
  | Some _, None =>
      (nl = 0 /\ e = ZeroDivisionError) \/ (nl <> 0 /\ e = OverflowError)
  | None, Some _ =>
      (nh = 0 /\ e = ZeroDivisionError) \/ (nh <> 0 /\ e = OverflowError)
  | _, _ => False
  end.
Proof.
  unfold dimensions_finales.
  destruct (i_largeur elem) as [l|], (i_hauteur elem) as [h|];
    try discriminate; destruct (i_conserver_ratio elem); try discriminate;
    intros H; (split; [reflexivity|]).
  - destruct (int_truediv nh nl) as [r|e'] eqn:Hr; simpl in H.
    + destruct (py_mul l (PFloat r)) eqn:Hm; [discriminate H|].
      injection H as <-. apply py_mul_erreur in Hm as ->. right.
      split; [|reflexivity]. intros ->. discriminate Hr.
    + injection H as <-. now apply int_truediv_erreur in Hr.
  - destruct (int_truediv nl nh) as [r|e'] eqn:Hr; simpl in H.
    + destruct (py_mul h (PFloat r)) eqn:Hm; [discriminate H|].
      injection H as <-. apply py_mul_erreur in Hm as ->. right.
      split; [|reflexivity]. intros ->. discriminate Hr.
    + injection H as <-. now apply int_truediv_erreur in Hr.
Qed.

Lemma dimensions_finales_echecs_temoin :
  dimensions_finales image_logo 0 100 = Err ZeroDivisionError /\
  i_conserver_ratio image_logo = true /\
  ((0 = 0 /\ ZeroDivisionError = ZeroDivisionError) \/
   (0 <> 0 /\ ZeroDivisionError = OverflowError)).
Proof.
  split; [reflexivity|].
  exact (dimensions_finales_echecs image_logo 0 100 ZeroDivisionError eq_refl).
Defined.

(** ** The grouping dictionary *)

(** X11: the dictionary built by the grouping loop has a key exactly for the
    pages some descriptor names; the value at a key is the list of the
    descriptors naming that page, in registration order (a sublist of the
    queue); so every descriptor of the queue is in exactly the group of its
    own page. *)
Theorem organiser_partition els :
  (forall n l,
     organiser els ∅ !! n = Some l <-> l = groupe els n /\ l <> []) /\
  (forall n, groupe els n `sublist_of` els) /\
  (forall elem n l,
     organiser els ∅ !! n = Some l ->
     (elem ∈ l <-> elem ∈ els /\ page_de elem = n)).
Proof.
  split; [|split].
  - intros n l. rewrite organiser_vide_lookup.
    destruct (groupe els n) as [|e g]; split.
    + discriminate.
    + now intros [-> H].
    + intros [= <-]. now split.
    + now intros [-> _].
  - intros n. apply sublist_filter.
  - intros elem n l. rewrite organiser_vide_lookup.
    destruct (groupe els n) as [|e g] eqn:Hg; [discriminate|].
    intros [= <-]. rewrite <- Hg. unfold groupe.
    rewrite list_elem_of_filter. tauto.
Qed.

Lemma organiser_partition_temoin :
  organiser elements_hors_document ∅ !! 7 =
    Some [Image {| i_chemin_image := "absent.png"; i_x := PInt 0;
                   i_y := PInt 0; i_page := 7; i_largeur := None;
                   i_hauteur := None; i_conserver_ratio := true;
                   i_rotation := PInt 0; i_opacite := PFloat 1 |}] /\
  organiser elements_hors_document ∅ !! 0 = None.
Proof.
  split.
  - apply (proj1 (organiser_partition elements_hors_document)).
    split; [reflexivity|discriminate].
  - destruct (organiser elements_hors_document ∅ !! 0) as [l|] eqn:H;
      [|reflexivity].
    apply (proj1 (organiser_partition elements_hors_document)) in H
      as [-> Hne].
    now contradict Hne.
Defined.

(** ** The script *)

Lemma split_lignes_sans_saut s : nb_sauts s = O -> split_lignes s = [s].
Proof.
  induction s as [|c r IH]; [reflexivity|].
  cbn [nb_sauts split_lignes]. destruct (Ascii.eqb c "010"); [discriminate|].
  intros H. now rewrite (IH H).
Qed.

Lemma nb_sauts_app a b : nb_sauts (a +:+ b) = (nb_sauts a + nb_sauts b)%nat.
Proof.
  induction a as [|c r IH]; [reflexivity|].
  change (String c r +:+ b) with (String c (r +:+ b)).
  cbn [nb_sauts]. rewrite IH.
  now destruct (Ascii.eqb c "010").
Qed.

Lemma split_lignes_saut a b :
  nb_sauts a = O -> split_lignes (a +:+ nl +:+ b) = a :: split_lignes b.
Proof.
  induction a as [|c r IH]; [reflexivity|].
  change (String c r +:+ nl +:+ b) with (String c (r +:+ nl +:+ b)).
  cbn [nb_sauts split_lignes].
  destruct (Ascii.eqb c "010"); [discriminate|].
  intros H. now rewrite (IH H).
Qed.

Lemma split_lignes_signataire date :
  nb_sauts date = O ->
  split_lignes (texte_signataire date) =
    ["M. John Doe"; "Certified Adobe"; "Signé le " +:+ date].
Proof.
  intros H. unfold texte_signataire.
  rewrite !split_lignes_saut by reflexivity.
  rewrite split_lignes_sans_saut; [reflexivity|].
  now rewrite nb_sauts_app, H.
Qed.

(** X12: the script, end to end.  In any world where [document.pdf] is a PDF
    with at least one page, the logo is an image file (of any size),
    Helvetica-Bold is a known font, [#000000] parses, today's date holds no
    line break and the output can be opened, the script succeeds; the file
    it writes is the source with one overlay on its first page, holding the
    70 x 70 logo at (185, 115) and the two three-line texts at (50, 150) and
    (220, 155), and every other page unchanged; the source, the logo and the
    editors that existed are untouched. *)
Theorem principal_effet HexColor police_connue w p0 reste taille noir_rl :
  fichiers w !! "document.pdf" = Some (FichierPDF (p0 :: reste)) ->
  fichiers w !! "resources/adobe_logo.png" = Some (FichierImage taille) ->
  police_connue "Helvetica-Bold" = true ->
  HexColor "#000000" = Some noir_rl ->
  nb_sauts (date_du_jour w) = O ->
  "document_complet_annote.pdf" ∉ proteges w ->
  exists w',
    principal HexColor police_connue w = (Ok tt, w') /\
    fichiers w' =
      <["document_complet_annote.pdf" :=
          FichierPDF
            (merge_page p0
               {| pagesize := (mediabox_width p0, mediabox_height p0);
                  code := calque_signature noir_rl (date_du_jour w) |}
             :: reste)]> (fichiers w) /\
    (forall autre, is_Some (tas w !! autre) ->
                   tas w' !! autre = tas w !! autre).
Proof.
  intros Hdoc Hlogo Hpol Hcol Hdate Hw. unfold principal.
  set (self := fresh (dom (tas w))).
  assert (Hfrais : tas w !! self = None)
    by (apply not_elem_of_dom, is_fresh).
  rewrite (M_bind_ok _ _ w self
             (avec_tas (<[self := {| fichier_pdf_entree := "document.pdf";
                                     elements := [] |}]> (tas w)) w))
    by reflexivity.
  erewrite M_bind_ok
    by (apply signer_pdf_region_effet; cbn; apply lookup_insert_eq).
  rewrite generer_cas. cbn [tas fichiers proteges console date_du_jour
    avec_tas avec_console avec_fichiers].
  rewrite lookup_insert_eq.
  cbn [fichier_pdf_entree elements avec_elements app].
  unfold PdfReader. rewrite Hdoc.
  set (els := bloc_signature (PInt 50) (PInt 150) 0 true
                "resources/adobe_logo.png" (date_du_jour w)).
  assert (Hp0 : traiter_page HexColor police_connue (fichiers w)
                  (organiser els ∅) 0 p0 =
                Ok (merge_page p0
                      {| pagesize := (mediabox_width p0, mediabox_height p0);
                         code := calque_signature noir_rl (date_du_jour w) |})).
  { unfold traiter_page. rewrite organiser_vide_lookup.
    change (groupe els 0) with els. subst els.
    cbn [bloc_signature dessiner_elements].
    unfold dessiner_element, dessiner_texte, setFont, setFillColor_hex,
      dessiner_image, Image_open_size.
    cbn [i_chemin_image t_police t_couleur t_texte].
    rewrite Hlogo, Hpol, Hcol, (split_lignes_signataire _ Hdate).
    destruct taille as [nl nh].
    vm_compute. reflexivity. }
  assert (Hreste : forall sortie,
            traiter_pages HexColor police_connue (fichiers w)
              (organiser els ∅) 1 reste sortie = Ok (sortie ++ reste)).
  { intros sortie. apply traiter_pages_sans_groupe. intros k Hk.
    rewrite organiser_vide_lookup. subst els.
    unfold groupe, bloc_signature.
    rewrite !filter_cons, !decide_False by (cbn; lia). reflexivity. }
  cbn [traiter_pages]. rewrite Hp0. cbn [mbind resultat_bind].
  change (0 + 1) with 1. rewrite Hreste.
  rewrite decide_False by exact Hw.
  eexists. split; [reflexivity|]. cbn. split; [reflexivity|].
  intros autre [e He]. rewrite insert_insert_eq.
  rewrite lookup_insert_ne; [reflexivity|]. intros <-. congruence.
Qed.

Lemma principal_effet_temoin :
  exists w',
    principal HexColor_exemple polices_exemple monde_exemple = (Ok tt, w') /\
    fichiers w' !! "document_complet_annote.pdf" =
      Some (FichierPDF
              [merge_page (page_a4 "page 1")
                 {| pagesize := (595.2756, 841.8898)%float;
                    code := calque_signature noir "03/11/2026" |};
               page_a4 "page 2"]) /\
    fichiers w' !! "document.pdf" = fichiers monde_exemple !! "document.pdf" /\
    tas w' !! 0%nat = Some editeur_exemple.
Proof.
  destruct (principal_effet HexColor_exemple polices_exemple monde_exemple
              (page_a4 "page 1") [page_a4 "page 2"] (200, 100) noir
              eq_refl eq_refl eq_refl eq_refl eq_refl (not_elem_of_empty _))
    as (w' & Hrun & Hfs & Htas).
  exists w'. split; [exact Hrun|]. rewrite Hfs.
  split; [apply lookup_insert_eq|].
  split; [now rewrite lookup_insert_ne|].
  apply Htas. now eexists.
Defined.

(** ** Writing over the source *)

(** X13: [generer] does not protect the source.  Called with the source path
    as output it succeeds like any other call and replaces the source by the
    annotated document: what the editor reads next has the same number of
    pages, and each page that a descriptor names carries one overlay more
    than before (the others none more), so that every further call stacks
    another overlay on those pages. *)
Theorem generer_ecrase_la_source HexColor police_connue w self ed pages w1 :
  tas w !! self = Some ed ->
  PdfReader (fichiers w) (fichier_pdf_entree ed) = Ok pages ->
  generer HexColor police_connue self (fichier_pdf_entree ed) w = (Ok tt, w1) ->
  exists res,
    PdfReader (fichiers w1) (fichier_pdf_entree ed) = Ok res /\
    length res = length pages /\
    forall k p,
      pages !! k = Some p ->
      exists p',
        res !! k = Some p' /\
        length (fusions p') =
          (length (fusions p) +
           match groupe (elements ed) (Z.of_nat k) with
           | [] => 0
           | _ => 1
           end)%nat.
Proof.
  intros Hed Hpdf. rewrite generer_cas, Hed, Hpdf.
  destruct (traiter_pages _ _ _ _ _ _ _) as [res|] eqn:Hres; [|discriminate].
  destruct (decide _); [discriminate|]. intros [= <-].
  change 0 with (Z.of_nat 0) in Hres.
  apply traiter_pages_ok in Hres as (nouvelles & -> & Hlen & Hk).
  exists nouvelles. unfold PdfReader. cbn. rewrite lookup_insert_eq.
  split; [reflexivity|]. split; [exact Hlen|]. intros k p Hp.
  destruct (Hk k p Hp) as (p' & Hp' & Htp). exists p'.
  split; [exact Hp'|]. simpl in Htp. unfold traiter_page in Htp.
  rewrite organiser_vide_lookup in Htp.
  destruct (groupe (elements ed) (Z.of_nat k)) as [|e g].
  - injection Htp as <-. lia.
  - destruct (dessiner_elements _ _ _ _ _) as [can|]; [|discriminate Htp].
    injection Htp as <-. simpl. rewrite length_app. reflexivity.
Qed.

Lemma generer_ecrase_la_source_temoin :
  exists w1 p',
    generer HexColor_exemple polices_exemple 0%nat "document.pdf" monde_hello =
      (Ok tt, w1) /\
    PdfReader (fichiers w1) "document.pdf" = Ok [p'] /\
    length (fusions p') = 1%nat.
Proof.
  set (w1 := snd (generer HexColor_exemple polices_exemple 0%nat
                    "document.pdf" monde_hello)).
  assert (H : generer HexColor_exemple polices_exemple 0%nat "document.pdf"
                monde_hello = (Ok tt, w1)) by (vm_compute; reflexivity).
  destruct (generer_ecrase_la_source HexColor_exemple polices_exemple
              monde_hello 0%nat
              (avec_elements [Texte texte_hello] editeur_exemple)
              [page_a4 "vierge"] w1 eq_refl eq_refl H)
    as (res & Hres & Hlen & Hk).
  destruct (Hk 0%nat _ eq_refl) as (p' & Hp' & Hf).
  destruct res as [|q [|q' res]]; try discriminate Hlen.
  injection Hp' as ->.
  exists w1, p'. split; [exact H|]. split; [exact Hres|exact Hf].
Defined.
